(** * data-profile: data-quality metrics, key relations and CSV ingestion

    A shallow embedding of the Python service in [hackenv/]:
    - [modules/dataquality.py]: [compute_metrics], [generate_llm_prompt],
      [get_llm_analysis], [get_data_quality];
    - [modules/Keys_Relation.py]: [get_keys_relations];
    - [main.py]: the routes [keys_relations], [get_keys_relations_endpoint],
      [get_tables_with_columns], [get_table_columns] and [data_quality];
    - [database.py]: the declared tables and [upload_csv];
    - [utils/helpers.py]: [json_friendly].

    Conventions.
    - A pandas frame is a list of named columns plus the length of its index.
      A cell is [option V]: [None] stands for NULL / NaN / Python [None].
    - Python [int]s are [Z].  Python floats are the rationals they denote;
      every float operation is the exact operation followed by the rounding
      [rnd], which the development keeps as a parameter.
    - A division whose divisor is zero is an outcome of its own,
      [Raise ZeroDivisionError] (plain Python raises, numpy warns and yields
      nan or inf).
    - Python dicts whose order is observable are insertion-ordered
      association lists ([dict]); sets and unordered mappings are stdpp's
      [gset] and [gmap].
    - The libraries the code calls are its environment: SQLite answering the
      text of a query, the summarisation service, [pd.read_csv],
      [pd.to_datetime], [str] of a float and the storage engine are
      parameters of the functions that call them.
    - A string is its UTF-8 text.  [lower] and [strip] are Python's on
      ASCII text; what pandas makes of field names outside ASCII, or of
      names that coincide once normalised, is left to the environment. *)

From Stdlib Require Import QArith Qabs Qround Qpower Qcanon Lqa ZArith String Ascii DecimalString.
From stdpp Require Import base option list gmap strings.

Open Scope Z_scope.

(** ** Exceptions and the error monad *)

Inductive exn :=
| ZeroDivisionError
| KeyError (k : string)
| TypeError (msg : string)
| DatabaseError (msg : string)
| APIError (msg : string).

Inductive result (A : Type) :=
| Ok (a : A)
| Raise (e : exn).
Arguments Ok {A} a.
Arguments Raise {A} e.

#[global] Instance result_ret : MRet result := λ A x, Ok x.
#[global] Instance result_bind : MBind result :=
  λ A B f m, match m with Ok a => f a | Raise e => Raise e end.

(** ** Insertion-ordered dictionaries *)

Definition dict (A : Type) := list (string * A).

Fixpoint dict_get {A} (k : string) (d : dict A) : option A :=
  match d with
  | [] => None
  | (k', v) :: d' => if decide (k = k') then Some v else dict_get k d'
  end.

(** [d[k] = v]: an existing key keeps its position. *)
Fixpoint dict_set {A} (k : string) (v : A) (d : dict A) : dict A :=
  match d with
  | [] => [(k, v)]
  | (k', v') :: d' =>
      if decide (k = k') then (k, v) :: d' else (k', v') :: dict_set k v d'
  end.

Definition dict_keys {A} (d : dict A) : list string := d.*1.

(** ** pandas frames *)

Record DataFrame (V : Type) := mkFrame {
  nrows : nat;                              (* len(data.index) *)
  series : list (string * list (option V))  (* the columns, in order *)
}.
Arguments mkFrame {V} nrows series.
Arguments nrows {V} d.
Arguments series {V} d.

Section Frames.
Context {V : Type} `{EqDecision V}.

(** [len(data)] *)
Definition len (data : DataFrame V) : Z := Z.of_nat (nrows data).

(** [data.columns] *)
Definition columns (data : DataFrame V) : list string := (series data).*1.

(** [data[column]] *)
Fixpoint lookup_series (column : string) (s : list (string * list (option V)))
  : result (list (option V)) :=
  match s with
  | [] => Raise (KeyError column)
  | (c, vs) :: s' => if decide (column = c) then Ok vs else lookup_series column s'
  end.

Definition getitem (data : DataFrame V) (column : string) : result (list (option V)) :=
  lookup_series column (series data).

(** [s.isnull()] and [s.isnull().sum()] *)
Definition isnull (x : option V) : bool :=
  match x with None => true | Some _ => false end.

Definition sum_bool (bs : list bool) : Z :=
  Z.of_nat (length (filter (λ b, b = true) bs)).

Definition isnull_sum (vs : list (option V)) : Z := sum_bool (isnull <$> vs).

(** [s.nunique()]: the number of distinct values, nulls left out
    ([dropna=True] is the default). *)
Definition nunique (vs : list (option V)) : Z :=
  Z.of_nat (length (remove_dups (omap id vs))).

(** [.sum()] of a series of integers *)
Definition sum_Z (zs : list Z) : Z := foldr Z.add 0 zs.

(** The rows of the frame, by position in the index. *)
Definition row (data : DataFrame V) (i : nat) : list (option V) :=
  (λ cv : string * list (option V), default None (cv.2 !! i)) <$> series data.

Definition rows (data : DataFrame V) : list (list (option V)) :=
  row data <$> seq 0 (nrows data).

(** [data.duplicated()]: a row is marked when an equal row comes earlier
    ([keep='first']); two nulls compare equal. *)
Fixpoint duplicated_from (seen rs : list (list (option V))) : list bool :=
  match rs with
  | [] => []
  | r :: rs' => bool_decide (r ∈ seen) :: duplicated_from (r :: seen) rs'
  end.

Definition duplicated (data : DataFrame V) : list bool :=
  duplicated_from [] (rows data).

(** What [SELECT * FROM t] can give: distinct column names, at least one
    column, every column as long as the index. *)
Definition table_frame (data : DataFrame V) : Prop :=
  NoDup (columns data) ∧ series data ≠ [] ∧
  Forall (λ cv : string * list (option V), length cv.2 = nrows data) (series data).

(** [n] is the number of distinct non-null values of the column: the
    length of a duplicate-free list of exactly those values. *)
Definition distinct_values (vs : list (option V)) (n : Z) : Prop :=
  ∃ l : list V, NoDup l ∧ (∀ v, v ∈ l ↔ Some v ∈ vs) ∧ n = Z.of_nat (length l).
End Frames.

(** ** utils/helpers.py *)

(** [json_friendly] turns numpy scalars into the Python numbers of the same
    value; on the numbers of this model it is the identity. *)
Definition json_friendly {A} (obj : A) : A := obj.

(** ** Floats *)

(** [round(q)] to the nearest integer, ties to even. *)
Definition round_half_even (q : Q) : Z :=
  let f := Qfloor q in
  match (q - inject_Z f ?= 1 # 2)%Q with
  | Lt => f
  | Gt => f + 1
  | Eq => if Z.even f then f else f + 1
  end.

(** [floor(log2 |x|)], the binary exponent of a non-zero [x]. *)
Definition float_exponent (x : Q) : Z :=
  let e0 := Z.log2 (Z.abs (Qnum x)) - Z.log2 (Z.pos (Qden x)) in
  if Qle_bool (2 ^ e0) (Qabs x) then e0 else e0 - 1.

(** The rounding of binary64: to the nearest number with a significand of
    53 bits, ties to even.  The exponent range is left unbounded (no
    overflow, no subnormal numbers), which the percentages and ratios of
    this program never leave. *)
Definition round64 (x : Q) : Q :=
  if Qeq_bool x 0 then 0%Q
  else
    let k := float_exponent x - 52 in
    let r := round_half_even (Qabs x / 2 ^ k) in
    ((if Qle_bool 0 x then 1 else -1) * inject_Z r * 2 ^ k)%Q.

(** ** modules/dataquality.py *)

Record ColumnMetrics := mkColumnMetrics {
  col_missing_values : Z;
  col_null_values_percentage : Q;
  col_completeness_percentage : Q;
  col_uniqueness_percentage : Q
}.

(** The dict [compute_metrics] returns; [error] is the key that only the
    empty-table record has. *)
Record Metrics := mkMetrics {
  table_name : string;
  error : option string;
  total_rows : Z;
  missing_values : Z;
  duplicate_rows : Z;
  null_values_percentage : Q;
  completeness_percentage : Q;
  uniqueness_percentage : Q;
  metric_columns : dict ColumnMetrics
}.

Definition set_metric_columns (m : Metrics) (cs : dict ColumnMetrics) : Metrics :=
  mkMetrics (table_name m) (error m) (total_rows m) (missing_values m)
    (duplicate_rows m) (null_values_percentage m) (completeness_percentage m)
    (uniqueness_percentage m) cs.

Section FloatArith.
(** Rounding to the float format. *)
Variable rnd : Q → Q.

Definition fsub (x y : Q) : Q := rnd (x - y).
Definition fmul (x y : Q) : Q := rnd (x * y).
Definition fdiv (x y : Q) : Q := rnd (x / y).

(** [x / y] on numbers *)
Definition truediv (x y : Q) : result Q :=
  if Qeq_bool y 0 then Raise ZeroDivisionError else Ok (fdiv x y).

Section Metrics.
Context {V : Type} `{EqDecision V}.

(** The body of [for column in data.columns], on the columns still to
    visit and the [metrics["columns"]] built so far. *)
Fixpoint column_loop (data : DataFrame V) (total_rows : Z)
    (cols : list string) (acc : dict ColumnMetrics) : result (dict ColumnMetrics) :=
  match cols with
  | [] => Ok acc
  | column :: cols' =>
      s ← getitem data column;
      let missing_values := isnull_sum s in
      r ← truediv (inject_Z missing_values) (inject_Z total_rows);
      let column_completeness := fmul (fsub 1 r) 100 in
      u ← truediv (inject_Z (nunique s)) (inject_Z total_rows);
      let column_uniqueness := fmul u 100 in
      r' ← truediv (inject_Z missing_values) (inject_Z total_rows);
      let column_null_percentage := fmul r' 100 in
      column_loop data total_rows cols'
        (dict_set column
           {| col_missing_values := json_friendly missing_values;
              col_null_values_percentage := json_friendly column_null_percentage;
              col_completeness_percentage := json_friendly column_completeness;
              col_uniqueness_percentage := json_friendly column_uniqueness |}
           acc)
  end.

(** The entry the loop stores for a column with cells [s], when no
    division raises. *)
Definition column_entry (total_rows : Z) (s : list (option V)) : ColumnMetrics :=
  {| col_missing_values := isnull_sum s;
     col_null_values_percentage :=
       fmul (fdiv (inject_Z (isnull_sum s)) (inject_Z total_rows)) 100;
     col_completeness_percentage :=
       fmul (fsub 1 (fdiv (inject_Z (isnull_sum s)) (inject_Z total_rows))) 100;
     col_uniqueness_percentage :=
       fmul (fdiv (inject_Z (nunique s)) (inject_Z total_rows)) 100 |}.

Definition compute_metrics (data : DataFrame V) (table_name : string)
  : result Metrics :=
  let total_rows := len data in
  let total_columns := Z.of_nat (length (columns data)) in
  let total_cells := total_rows * total_columns in
  if decide (total_rows = 0) then
    Ok {| table_name := table_name;
          error := Some "Table is empty"%string;
          total_rows := 0;
          missing_values := 0;
          duplicate_rows := 0;
          null_values_percentage := 0;
          completeness_percentage := 0;
          uniqueness_percentage := 0;
          metric_columns := [] |}
  else
    let total_missing_values := sum_Z ((λ cv, isnull_sum cv.2) <$> series data) in
    r ← truediv (inject_Z total_missing_values) (inject_Z total_cells);
    let table_completeness := fmul (fsub 1 r) 100 in
    let total_unique_values := sum_Z ((λ cv, nunique cv.2) <$> series data) in
    u ← truediv (inject_Z total_unique_values) (inject_Z total_cells);
    let table_uniqueness := fmul u 100 in
    r' ← truediv (inject_Z total_missing_values) (inject_Z total_cells);
    let table_null_percentage := fmul r' 100 in
    let total_duplicate_rows := sum_bool (duplicated data) in
    let metrics :=
      {| table_name := table_name;
         error := None;
         total_rows := total_rows;
         missing_values := json_friendly total_missing_values;
         duplicate_rows := json_friendly total_duplicate_rows;
         null_values_percentage := json_friendly table_null_percentage;
         completeness_percentage := json_friendly table_completeness;
         uniqueness_percentage := json_friendly table_uniqueness;
         metric_columns := [] |} in
    cs ← column_loop data total_rows (columns data) (metric_columns metrics);
    Ok (set_metric_columns metrics cs).
End Metrics.
End FloatArith.

(** *** The summary prompt *)

Definition nl : string := String (ascii_of_nat 10) EmptyString.

(** [str(n)] for a Python int *)
Definition str_of_Z (z : Z) : string := NilZero.string_of_int (Z.to_int z).

(** ["sep".join(parts)] *)
Fixpoint join (sep : string) (parts : list string) : string :=
  match parts with
  | [] => ""
  | [p] => p
  | p :: ps => p +:+ sep +:+ join sep ps
  end.

(** [format(x, ".2f")]: the decimal expansion of the float, correctly
    rounded to two places. *)
Definition fmt2f (x : Q) : string :=
  let n := round_half_even (Qabs x * 100) in
  let cents := n mod 100 in
  (match (x ?= 0)%Q with Lt => "-" | _ => "" end) +:+
  str_of_Z (n / 100) +:+ "." +:+
  (if cents <? 10 then "0" else "") +:+ str_of_Z cents.

Definition format_column_metrics (columns : dict ColumnMetrics) : string :=
  join nl
    ((λ '(col, metrics),
        "Column '" +:+ col +:+ "':" +:+ nl +:+
        "- Completeness: " +:+ fmt2f (col_completeness_percentage metrics) +:+ "%" +:+ nl +:+
        "- Uniqueness: " +:+ fmt2f (col_uniqueness_percentage metrics) +:+ "%" +:+ nl +:+
        "- Missing Values: " +:+ str_of_Z (col_missing_values metrics))
     <$> columns).

Definition generate_llm_prompt (metrics : Metrics) : string :=
  nl +:+
  "    Please analyze the following data quality metrics and provide a concise summary in business perspective im not going to filter this i will directly show this in dash board so direclty give correct data with out extara infomation givw output like a paragraph :" +:+ nl +:+
  nl +:+
  "    Table: " +:+ table_name metrics +:+ nl +:+
  "    - Total Rows: " +:+ str_of_Z (total_rows metrics) +:+ nl +:+
  "    - Overall Completeness: " +:+ fmt2f (completeness_percentage metrics) +:+ "%" +:+ nl +:+
  "    - Overall Uniqueness: " +:+ fmt2f (uniqueness_percentage metrics) +:+ "%" +:+ nl +:+
  "    - Duplicate Rows: " +:+ str_of_Z (duplicate_rows metrics) +:+ nl +:+
  "    - Missing Values: " +:+ str_of_Z (missing_values metrics) +:+ nl +:+
  "    " +:+ nl +:+
  "    Column-specific metrics:" +:+ nl +:+
  "    " +:+ format_column_metrics (metric_columns metrics) +:+ nl +:+
  "    " +:+ nl +:+
  "    Provide:" +:+ nl +:+
  "    1. A summary of overall data quality" +:+ nl +:+
  "    2. Key issues identified" +:+ nl +:+
  "    3. Specific recommendations for improvement" +:+ nl +:+
  "    4. Highlight any columns needing attention" +:+ nl +:+
  "    ".

(** *** The batch analysis *)

(** One element of the list [get_data_quality] returns. *)
Inductive Item :=
| TableNotFound (table : string)
    (* {"table_name": table, "error": "Table not found", "llm_analysis": None} *)
| Analysed (metrics : Metrics) (llm_analysis : string).
    (* {**metrics, "llm_analysis": llm_analysis} *)

Definition item_table_name (it : Item) : string :=
  match it with
  | TableNotFound table => table
  | Analysed metrics _ => table_name metrics
  end.

Definition item_error (it : Item) : option string :=
  match it with
  | TableNotFound _ => Some "Table not found"%string
  | Analysed metrics _ => error metrics
  end.

(** [None] is the JSON null of an absent summary. *)
Definition item_llm_analysis (it : Item) : option string :=
  match it with
  | TableNotFound _ => None
  | Analysed _ llm_analysis => Some llm_analysis
  end.

Definition item_metrics (it : Item) : option Metrics :=
  match it with
  | TableNotFound _ => None
  | Analysed metrics _ => Some metrics
  end.

(** [s.split(",")] *)
Fixpoint split (sep : ascii) (s : string) : list string :=
  match s with
  | EmptyString => [EmptyString]
  | String c s' =>
      if decide (c = sep) then EmptyString :: split sep s'
      else match split sep s' with
           | [] => [String c EmptyString]
           | w :: ws => String c w :: ws
           end
  end.

Section Service.
Context {V : Type} `{EqDecision V}.
Variable rnd : Q → Q.

(** The summarisation service: [client.chat.completions.create], as a
    function of the prompts sent before and of the prompt sent now; it
    answers with the text of the first choice or raises. *)
Variable client : list string → string → result string.

(** The SQLite database: its tables and their rows. *)
Variable db : gmap string (DataFrame V).

(** [pd.read_sql_query(query, conn)]: what SQLite answers to the text of
    a query on this database, a frame or the [DatabaseError] of a text it
    cannot parse or run. *)
Variable read_sql_query : string → result (DataFrame V).

(** The table name is put into the text of the query as it is, without
    quotes. *)
Definition get_data_from_table (table_name : string) : result (DataFrame V) :=
  let query := "SELECT * FROM " +:+ table_name in
  read_sql_query query.

(** The second component is the log of the prompts sent so far. *)
Definition get_llm_analysis (metrics : Metrics) (sent : list string)
  : result string * list string :=
  let prompt := generate_llm_prompt metrics in
  (client sent prompt, sent ++ [prompt]).

(** The body of [for table in table_names], on the names still to visit,
    the [results] so far and the prompts sent so far. *)
Fixpoint analysis_loop (existing_tables : gset string) (table_names : list string)
    (results : list Item) (sent : list string) : result (list Item) * list string :=
  match table_names with
  | [] => (Ok results, sent)
  | table :: table_names' =>
      if decide (table ∉ existing_tables) then
        analysis_loop existing_tables table_names'
          (results ++ [TableNotFound table]) sent
      else
        match data ← get_data_from_table table; compute_metrics rnd data table with
        | Raise e => (Raise e, sent)
        | Ok metrics =>
            match get_llm_analysis metrics sent with
            | (Raise e, sent') => (Raise e, sent')
            | (Ok llm_analysis, sent') =>
                analysis_loop existing_tables table_names'
                  (results ++ [Analysed metrics llm_analysis]) sent'
            end
        end
  end.

(** What the loop appends for the requested name [t]: the soft error of
    an unknown table, or the metrics of a known one together with an
    answer of the service to their prompt. *)
Definition item_for (t : string) (it : Item) : Prop :=
  ((t ∉ dom db) ∧ it = TableNotFound t) ∨
  (∃ data m a s,
     t ∈ dom db ∧ get_data_from_table t = Ok data ∧
     compute_metrics rnd data t = Ok m ∧
     client s (generate_llm_prompt m) = Ok a ∧ it = Analysed m a).

(** The prompts a run sends for the items it returns: one for each item
    that carries metrics. *)
Definition prompts_sent (items : list Item) : list string :=
  omap (λ it, generate_llm_prompt <$> item_metrics it) items.

(** [table_names] is whatever the caller passes: [None] is Python's
    [None], which the [for] statement cannot iterate. *)
Definition get_data_quality (table_names : option (list string)) (sent : list string)
  : result (list Item) * list string :=
  let existing_tables : gset string := dom db in
  match table_names with
  | None => (Raise (TypeError "'NoneType' object is not iterable"), sent)
  | Some table_names => analysis_loop existing_tables table_names [] sent
  end.

(** main.py: [POST /data-quality/]; an absent query parameter is [None]. *)
Definition data_quality (table_names : option string) (sent : list string)
  : result (list Item) * list string :=
  let table_names_list :=
    match table_names with
    | Some s => if decide (s = EmptyString) then None else Some (split "," s)
    | None => None
    end in
  get_data_quality table_names_list sent.
End Service.

(** ** modules/Keys_Relation.py and the key-relation routes of main.py *)

(** The JSON values the routes answer with; a Python dict is an object
    whose members keep their insertion order. *)
#[local] Unset Elimination Schemes.
Inductive json :=
| JNull
| JString (s : string)
| JArray (xs : list json)
| JObject (members : dict json).
#[local] Set Elimination Schemes.

(** What SQLAlchemy's inspector reads from the catalog. *)
Record ForeignKey := mkForeignKey {
  constrained_columns : list string;
  referred_table : string;
  referred_columns : list string
}.

Record Inspector := mkInspector {
  get_table_names : list string;
  get_pk_constraint : string → list string;   (* its ["constrained_columns"] *)
  get_foreign_keys : string → list ForeignKey
}.

Definition json_strings (l : list string) : json := JArray (JString <$> l).

Definition relation_of (fk : ForeignKey) : json :=
  JObject [("column", json_strings (constrained_columns fk));
           ("references_table", JString (referred_table fk));
           ("references_column", json_strings (referred_columns fk))]%string.

(** The entry of one table in the report: its primary-key columns and
    its foreign keys. *)
Definition table_keys (inspector : Inspector) (table : string) : json :=
  JObject [("primary_keys", json_strings (get_pk_constraint inspector table));
           ("foreign_keys", JArray (relation_of <$> get_foreign_keys inspector table))]%string.

(** The dict [key_relations] once the loop over the tables has run. *)
Definition key_relations (inspector : Inspector) : dict json :=
  foldl
    (λ key_relations table,
       let primary_keys := get_pk_constraint inspector table in
       let foreign_keys := get_foreign_keys inspector table in
       let relations := relation_of <$> foreign_keys in
       dict_set table
         (JObject [("primary_keys", json_strings primary_keys);
                   ("foreign_keys", JArray relations)]%string)
         key_relations)
    [] (get_table_names inspector).

Definition get_keys_relations (inspector : Inspector) : json :=
  JObject [("key_relationships", JObject (key_relations inspector))]%string.

(** [GET /keys_relation] *)
Definition keys_relations (inspector : Inspector) : json :=
  let key_relations := get_keys_relations inspector in
  JObject [("message", JString "Welcome to the FastAPI Service");
           ("key_relationships", key_relations)]%string.

(** [GET /get_keys_relations] *)
Definition get_keys_relations_endpoint (inspector : Inspector) : json :=
  get_keys_relations inspector.

(** *** The table and column routes of main.py *)

(** One description of [inspector.get_columns(table)]. *)
Record ReflectedColumn := mkReflectedColumn {
  rc_name : string;       (* column["name"] *)
  rc_type : string;
  rc_nullable : bool
}.

(** [obj[key]] on a JSON object, [None] when the member is missing or the
    value is no object. *)
Definition json_member (key : string) (obj : json) : option json :=
  match obj with
  | JObject members => dict_get key members
  | _ => None
  end.

(** [GET /get_tables_with_columns], as main.py defines it in full. *)
Definition get_tables_with_columns (inspector : Inspector)
    (get_columns : string → list ReflectedColumn) : json :=
  let tables := get_table_names inspector in
  let table_info :=
    foldl (λ table_info table,
             let columns := rc_name <$> get_columns table in
             dict_set table (json_strings columns) table_info)
          [] tables in
  JObject [("tables_with_columns", JObject table_info)]%string.

(** [GET /get_table_columns/{table_name}] *)
Definition get_table_columns (inspector : Inspector)
    (get_columns : string → list ReflectedColumn) (table_name : string) : json :=
  let tables := get_table_names inspector in
  if decide (table_name ∉ tables) then
    JObject [("error", JString ("Table '" +:+ table_name +:+ "' does not exist"))]%string
  else
    let columns := rc_name <$> get_columns table_name in
    JObject [("table", JString table_name); ("columns", json_strings columns)]%string.

(** ** database.py *)

(** The values of a frame read from CSV text and of a stored mapping. *)
Inductive value :=
| VInt (z : Z)
| VFloat (q : Qc)
| VStr (s : string)
| VBool (b : bool)
| VDatetime (t : Z)
| VNaT.                  (* pandas.NaT, the missing value of a datetime column *)

Inductive ColumnType := String_ | Integer | Float | DateTime.

#[global] Instance ColumnType_eq_dec : EqDecision ColumnType.
Proof. solve_decision. Defined.

Record Column := mkColumn {
  name : string;
  type_ : ColumnType;
  primary_key : bool;
  nullable : bool;
  foreign_key : option string
}.

Record Model := mkModel {
  tablename : string;
  table_columns : list Column
}.

Definition Customer : Model :=
  mkModel "customer"
    [mkColumn "customer_id" String_ true false None;
     mkColumn "name" String_ false false None;
     mkColumn "email" String_ false true None;
     mkColumn "phone" String_ false true None;
     mkColumn "address" String_ false true None;
     mkColumn "created_at" DateTime false true None].

Definition Sales : Model :=
  mkModel "sales"
    [mkColumn "sales_id" String_ true false None;
     mkColumn "customer_id" String_ false true (Some "customer.customer_id"%string);
     mkColumn "product_id" String_ false true (Some "product.product_id"%string);
     mkColumn "retailer_id" String_ false true (Some "retailer.retailer_id"%string);
     mkColumn "quantity" Integer false false None;
     mkColumn "total_price" Float false false None;
     mkColumn "sales_date" DateTime false true None].

Definition Orders : Model :=
  mkModel "orders"
    [mkColumn "order_id" String_ true false None;
     mkColumn "customer_id" String_ false true (Some "customer.customer_id"%string);
     mkColumn "product_id" String_ false true (Some "product.product_id"%string);
     mkColumn "retailer_id" String_ false true (Some "retailer.retailer_id"%string);
     mkColumn "order_date" DateTime false true None;
     mkColumn "status" String_ false false None].

Definition Product : Model :=
  mkModel "product"
    [mkColumn "product_id" String_ true false None;
     mkColumn "name" String_ false false None;
     mkColumn "category_id" String_ false true (Some "product_category.category_id"%string);
     mkColumn "price" Float false false None;
     mkColumn "stock_quantity" Integer false false None].

Definition ProductCategory : Model :=
  mkModel "product_category"
    [mkColumn "category_id" String_ true false None;
     mkColumn "category_name" String_ false false None].

Definition Retailer : Model :=
  mkModel "retailer"
    [mkColumn "retailer_id" String_ true false None;
     mkColumn "name" String_ false false None;
     mkColumn "location" String_ false true None].

Definition SelfPosition : Model :=
  mkModel "self_position"
    [mkColumn "position_id" String_ true false None;
     mkColumn "product_id" String_ false true (Some "product.product_id"%string);
     mkColumn "shelf_location" String_ false false None;
     mkColumn "height" Float false false None].

(** *** String helpers of [upload_csv] *)

(** [s.lower()] and [s.strip()], on ASCII text. *)
Definition lower_ascii (c : ascii) : ascii :=
  let n := nat_of_ascii c in
  if (65 <=? n)%nat && (n <=? 90)%nat then ascii_of_nat (n + 32) else c.

Definition lower (s : string) : string :=
  string_of_list_ascii (lower_ascii <$> list_ascii_of_string s).

Definition is_whitespace (c : ascii) : bool :=
  let n := nat_of_ascii c in
  ((9 <=? n)%nat && (n <=? 13)%nat) || ((28 <=? n)%nat && (n <=? 32)%nat).

Fixpoint lstrip_chars (cs : list ascii) : list ascii :=
  match cs with
  | c :: cs' => if is_whitespace c then lstrip_chars cs' else cs
  | [] => []
  end.

Definition strip (s : string) : string :=
  string_of_list_ascii
    (reverse (lstrip_chars (reverse (lstrip_chars (list_ascii_of_string s))))).

(** [name.lower().strip()], what [df.columns.str.lower().str.strip()] does
    to each column name. *)
Definition normalise (c : string) : string := strip (lower c).

(** [sub in s] *)
Definition contains (sub s : string) : bool :=
  match index 0 sub s with Some _ => true | None => false end.

(** [s.isascii()] *)
Definition is_ascii (s : string) : bool :=
  forallb (λ c, (nat_of_ascii c <? 128)%nat) (list_ascii_of_string s).

(** *** [upload_csv] *)

(** The answer of the route: [{"message": ...}] or [{"error": ...}]. *)
Inductive UploadResponse :=
| UploadMessage (message : string)
| UploadError (error : string).

(** What [contents.decode("utf-8")] and [pd.read_csv] make of an uploaded
    file: the frame, every column typed as a whole, or the exception one
    of them raises, as the text [str(e)]. *)
Inductive CsvRead :=
| CsvFrame (df : DataFrame value)
| CsvError (message : string).

(** [df.columns = f(df.columns)] *)
Definition rename_columns {V} (f : string → string) (df : DataFrame V) : DataFrame V :=
  mkFrame (nrows df) ((λ cv : string * list (option V), (f cv.1, cv.2)) <$> series df).

(** [df.drop(columns=invalid_columns)] *)
Definition drop_columns {V} (invalid_columns : gset string) (df : DataFrame V)
  : DataFrame V :=
  mkFrame (nrows df)
    (filter (λ cv : string * list (option V), cv.1 ∉ invalid_columns) (series df)).

(** [df[col] = f(df[col])] *)
Definition setitem {V} (col : string) (f : list (option V) → list (option V))
    (df : DataFrame V) : DataFrame V :=
  mkFrame (nrows df)
    ((λ cv : string * list (option V),
        if decide (cv.1 = col) then (cv.1, f cv.2) else cv) <$> series df).

(** [df.to_dict(orient="records")]: one mapping per row that
    [df.itertuples] yields; of two columns with one name the later one
    wins.  The rows are zipped from the columns, so a frame without
    columns yields no row, whatever its index. *)
Definition to_dict_records {V} (df : DataFrame V) : list (gmap string (option V)) :=
  match series df with
  | [] => []
  | _ :: _ =>
      (λ i, foldl (λ (m : gmap string (option V)) (cv : string * list (option V)),
                     <[cv.1 := default None (cv.2 !! i)]> m) ∅ (series df))
      <$> seq 0 (nrows df)
  end.

(** The field names this model follows pandas on: ASCII names, no two of
    which are the same once they are normalised. *)
Definition modelled_labels (df : DataFrame value) : Prop :=
  Forall (λ c, is_ascii c = true) (columns df) ∧ NoDup (normalise <$> columns df).

#[global] Instance modelled_labels_dec (df : DataFrame value) :
  Decision (modelled_labels df).
Proof. unfold modelled_labels. apply _. Defined.

Definition id_columns : list string :=
  ["customer_id"; "product_id"; "retailer_id"; "order_id"; "sales_id";
   "category_id"; "position_id"; "phone"]%string.

Definition is_datetime_column (col : string) : bool :=
  contains "date" col || contains "created_at" col.

Section Ingestion.
(** [str(x)] of a float and of a datetime. *)
Variable float_repr : Qc → string.
Variable datetime_repr : Z → string.

(** [pd.to_datetime(s, errors="coerce")] on a column; [None] is [NaT]. *)
Variable to_datetime : list (option value) → list (option Z).

(** The storage engine: the rows of each table, and the message of the
    exception [bulk_insert_mappings] or [commit] raises when the engine
    rejects the batch (a constraint it violates, a value the column type
    does not take). *)
Variable integrity_error :
  gmap string (list (gmap string (option value))) → string →
  list (gmap string (option value)) → option string.

(** Reading the uploaded file. *)
Variable read_csv : string → CsvRead.

(** What the conversions and the insert make of a frame whose field names
    are outside [modelled_labels]. *)
Variable unmodelled_labels :
  Model → DataFrame value → gmap string (list (gmap string (option value))) →
  UploadResponse * gmap string (list (gmap string (option value))).

(** [str(x)], as [astype(str)] applies it to each cell. *)
Definition py_str (x : option value) : string :=
  match x with
  | None => "None"
  | Some (VInt z) => str_of_Z z
  | Some (VFloat q) => float_repr q
  | Some (VStr s) => s
  | Some (VBool true) => "True"
  | Some (VBool false) => "False"
  | Some (VDatetime t) => datetime_repr t
  | Some VNaT => "NaT"
  end.

Definition astype_str (vs : list (option value)) : list (option value) :=
  (λ x, Some (VStr (py_str x))) <$> vs.

(** [pd.to_datetime(...)] followed by
    [.apply(lambda x: x.to_pydatetime() if pd.notnull(x) else None)].
    pandas infers the type of the column [apply] returns from its values:
    with a datetime among them it is a datetime column again, in which a
    missing value is [NaT]; with none it is a column of [None]. *)
Definition parse_datetimes (vs : list (option value)) : list (option value) :=
  let parsed := to_datetime vs in
  if decide (Forall (λ x, x = None) parsed) then (λ _, None) <$> parsed
  else (λ x : option Z,
          Some (match x with Some t => VDatetime t | None => VNaT end)) <$> parsed.

(** What the two conversions make of the column named [c]: text for an
    identifier or phone column, datetimes for a date column. *)
Definition stored_column (c : string) (vs : list (option value))
  : list (option value) :=
  let vs := if decide (c ∈ id_columns) then astype_str vs else vs in
  if is_datetime_column c then parse_datetimes vs else vs.

(** The mappings handed to [db.bulk_insert_mappings]: the frame after
    the renaming, the removal of the columns the model does not have and
    the two conversions. *)
Definition records_for (TableClass : Model) (df : DataFrame value)
  : list (gmap string (option value)) :=
  (* Convert column names to lowercase and strip spaces *)
  let df := rename_columns normalise df in
  (* df.replace({np.nan: None}): NaN and None are the same null cell *)
  (* Get database table columns *)
  let table_columns : gset string :=
    list_to_set (name <$> table_columns TableClass) in
  let csv_columns : gset string := list_to_set (columns df) in
  (* Identify invalid columns and remove them *)
  let invalid_columns := csv_columns ∖ table_columns in
  let df :=
    if decide (invalid_columns ≠ ∅) then drop_columns invalid_columns df
    else df in
  (* Convert ID and phone number columns to string *)
  let df :=
    foldl (λ df col,
             if decide (col ∈ columns df) then setitem col astype_str df
             else df)
          df id_columns in
  (* Convert datetime columns to Python datetime objects *)
  let datetime_columns :=
    filter (λ col, is_datetime_column col = true) (columns df) in
  let df :=
    foldl (λ df col,
             if decide (col ∈ columns df) then setitem col parse_datetimes df
             else df)
          df datetime_columns in
  to_dict_records df.

(** The route, with its table of models as a parameter.  Every exception
    is answered with [{"error": str(e)}], and nothing is committed.  The
    renaming comes before the look-up of the table in the source; it has no
    effect of its own, so the look-up is written first. *)
Definition upload_csv_with (tables : dict Model) (table_name : string)
    (contents : string) (store : gmap string (list (gmap string (option value))))
  : UploadResponse * gmap string (list (gmap string (option value))) :=
  match read_csv contents with
  | CsvError e => (UploadError e, store)
  | CsvFrame df =>
      match dict_get table_name tables with
      | None => (UploadError "Invalid table name", store)
      | Some TableClass =>
          if decide (modelled_labels df) then
            let records := records_for TableClass df in
            (* Insert data *)
            match integrity_error store (tablename TableClass) records with
            | Some e => (UploadError e, store)
            | None =>
                (UploadMessage ("CSV uploaded successfully to " +:+ table_name),
                 <[tablename TableClass :=
                     default [] (store !! tablename TableClass) ++ records]> store)
            end
          else unmodelled_labels TableClass df store
      end
  end.

(** Predefined tables and their models *)
Definition tables : dict Model :=
  [("customer", Customer); ("sales", Sales); ("orders", Orders);
   ("product", Product); ("product_category", ProductCategory);
   ("retailer", Retailer); ("self_position", SelfPosition)]%string.

Definition upload_csv := upload_csv_with tables.
End Ingestion.

(** ** Sample inputs *)

(** A table of three rows with a null and a repeated row, and an empty one. *)
Definition sample_frame : DataFrame Z :=
  mkFrame 3 [("a", [Some 1; Some 1; None]); ("b", [Some 2; Some 2; Some 3])]%string.

Definition empty_frame : DataFrame Z := mkFrame 0 [("a", []); ("b", [])]%string.

(** A database with a populated and an empty table, SQLite on it, and a
    service that always answers. *)
Definition sample_db : gmap string (DataFrame Z) :=
  {[ "customer" := sample_frame; "orders" := empty_frame ]}%string.

Definition sample_read_sql_query (query : string) : result (DataFrame Z) :=
  if decide (query = "SELECT * FROM customer"%string) then Ok sample_frame
  else if decide (query = "SELECT * FROM orders"%string) then Ok empty_frame
  else Raise (DatabaseError ("Execution failed on sql '" +:+ query +:+ "'")).

Definition sample_client (sent : list string) (prompt : string) : result string :=
  Ok "The data is mostly complete. Review the missing values."%string.

(** A catalog with tables A(pk id) and B(pk id, a_id referring to A.id). *)
Definition sample_inspector : Inspector :=
  mkInspector ["A"; "B"]%string (λ _, ["id"]%string)
    (λ table, if decide (table = "B"%string)
              then [mkForeignKey ["a_id"]%string "A" ["id"]%string] else []).

(** An environment for the upload route: floats and datetimes print in
    some way (the float 7.0 as "7.0"), no text parses as a date, and the
    engine accepts every batch. *)
Definition sample_float_repr (q : Qc) : string :=
  if Qc_eq_dec q (Q2Qc (7 # 1)) then "7.0"%string else "1.5"%string.
Definition sample_datetime_repr (t : Z) : string := "2024-01-01 00:00:00"%string.
Definition sample_to_datetime (vs : list (option value)) : list (option Z) :=
  (λ _, None) <$> vs.
Definition sample_integrity_error
    (store : gmap string (list (gmap string (option value)))) (table : string)
    (records : list (gmap string (option value))) : option string := None.

(** A customer batch whose identifier column is numeric, with one field the
    model does not have. *)
Definition customer_batch : DataFrame value :=
  mkFrame 1 [(" Customer_ID", [Some (VInt 7)]);
             ("Name ", [Some (VStr "Ann")]);
             ("age", [Some (VInt 41)])]%string.

(** The file of that batch: its identifier is written 007. *)
Definition customer_csv : string :=
  " Customer_ID,Name ,age" +:+ nl +:+ "007,Ann,41" +:+ nl.

(** A customer file whose identifier column has a blank cell, and its
    frame: pandas reads the column as floats. *)
Definition blank_id_csv : string :=
  "customer_id,name" +:+ nl +:+ "007,Ann" +:+ nl +:+ ",Bob" +:+ nl.

Definition blank_id_batch : DataFrame value :=
  mkFrame 2 [("customer_id", [Some (VFloat (Q2Qc (7 # 1))); None]);
             ("name", [Some (VStr "Ann"); Some (VStr "Bob")])]%string.

(** The schema {a, b} and the batch [{a: 1, b: 2, c: 3}]. *)
Definition AB : Model :=
  mkModel "ab" [mkColumn "a" Integer true false None;
                mkColumn "b" Integer false true None].

Definition ab_batch : DataFrame value :=
  mkFrame 1 [("a", [Some (VInt 1)]); ("b", [Some (VInt 2)]);
             ("c", [Some (VInt 3)])]%string.

Definition ab_csv : string := "a,b,c" +:+ nl +:+ "1,2,3" +:+ nl.

(** A file none of whose fields the customer model has, and its frame. *)
Definition foreign_csv : string :=
  "sku,colour" +:+ nl +:+ "1,red" +:+ nl +:+ "2," +:+ nl.

Definition foreign_batch : DataFrame value :=
  mkFrame 2 [("sku", [Some (VInt 1); Some (VInt 2)]);
             ("colour", [Some (VStr "red"); None])]%string.

(** [pd.read_csv] on the four files, and an environment that refuses the
    field names the model does not follow. *)
Definition sample_read_csv (contents : string) : CsvRead :=
  if decide (contents = customer_csv) then CsvFrame customer_batch
  else if decide (contents = blank_id_csv) then CsvFrame blank_id_batch
  else if decide (contents = ab_csv) then CsvFrame ab_batch
  else if decide (contents = foreign_csv) then CsvFrame foreign_batch
  else CsvError "No columns to parse from file".

Definition sample_unmodelled_labels (TableClass : Model) (df : DataFrame value)
    (store : gmap string (list (gmap string (option value))))
  : UploadResponse * gmap string (list (gmap string (option value))) :=
  (UploadError "field names outside the model", store).

(** A table of two rows without a null cell. *)
Definition full_frame : DataFrame Z :=
  mkFrame 2 [("a", [Some 1; Some 2]); ("b", [Some 5; Some 5])]%string.

(** A service that is down. *)
Definition failing_client (sent : list string) (prompt : string) : result string :=
  Raise (APIError "Connection error.").




(** * Properties *)

(** ** Dictionaries *)

Lemma dict_get_set_eq {A} (k : string) (v : A) (d : dict A) :
  dict_get k (dict_set k v d) = Some v.
Proof.
  induction d as [|[k' v'] d IH]; simpl.
  - by rewrite decide_True.
  - destruct (decide (k = k')) as [->|Hne]; simpl.
    + by rewrite decide_True.
    + by rewrite decide_False.
Qed.

Lemma dict_get_set_ne {A} (k k0 : string) (v : A) (d : dict A) :
  k0 ≠ k → dict_get k0 (dict_set k v d) = dict_get k0 d.
Proof.
  intros Hne. induction d as [|[k' v'] d IH]; simpl.
  - by rewrite decide_False.
  - destruct (decide (k = k')) as [->|Hne']; simpl.
    + by rewrite !decide_False.
    + destruct (decide (k0 = k')); [done | apply IH].
Qed.

(** ** Frames *)

Section FrameFacts.
Context {V : Type} `{EqDecision V}.

Lemma lookup_series_elem (c : string) (vs : list (option V)) s :
  NoDup s.*1 → (c, vs) ∈ s → lookup_series c s = Ok vs.
Proof.
  induction s as [|[c' vs'] s IH]; intros Hnd Hin.
  - by apply elem_of_nil in Hin.
  - simpl in *. apply NoDup_cons in Hnd as [Hc' Hnd].
    apply elem_of_cons in Hin as [Heq|Hin].
    + inversion Heq; subst. by rewrite decide_True.
    + destruct (decide (c = c')) as [->|Hne].
      * exfalso. apply Hc'. by apply (list_elem_of_fmap_2 fst) in Hin.
      * by apply IH.
Qed.

Lemma lookup_series_name (c : string) (s : list (string * list (option V))) :
  c ∈ s.*1 → ∃ vs, lookup_series c s = Ok vs ∧ (c, vs) ∈ s.
Proof.
  induction s as [|[c' vs'] s IH]; simpl; intros Hin.
  - by apply elem_of_nil in Hin.
  - destruct (decide (c = c')) as [->|Hne].
    + exists vs'. split; [done | apply elem_of_cons; by left].
    + apply elem_of_cons in Hin as [?|Hin]; [done|].
      destruct (IH Hin) as (vs & Hl & Hel).
      exists vs. split; [done | apply elem_of_cons; by right].
Qed.

Lemma sum_bool_bounds (bs : list bool) : 0 ≤ sum_bool bs ≤ Z.of_nat (length bs).
Proof.
  unfold sum_bool. split; [lia|].
  apply inj_le, length_filter.
Qed.

Lemma isnull_sum_bounds (vs : list (option V)) :
  0 ≤ isnull_sum vs ≤ Z.of_nat (length vs).
Proof.
  unfold isnull_sum. pose proof (sum_bool_bounds (isnull <$> vs)) as Hb.
  by rewrite length_fmap in Hb.
Qed.

(** The nulls of a rectangular frame are at most its cells. *)
Lemma missing_values_bounds (n : nat) (s : list (string * list (option V))) :
  Forall (λ cv : string * list (option V), length cv.2 = n) s →
  0 ≤ sum_Z ((λ cv, isnull_sum cv.2) <$> s) ≤ Z.of_nat n * Z.of_nat (length s).
Proof.
  induction 1 as [|[c vs] s Hlen _ IH]; [simpl; lia|].
  pose proof (isnull_sum_bounds vs) as Hb. simpl in Hlen. rewrite Hlen in Hb.
  rewrite fmap_cons, length_cons, Nat2Z.inj_succ, Z.mul_succ_r.
  change (sum_Z (?x :: ?l)) with (x + sum_Z l). simpl. lia.
Qed.

Lemma elem_of_omap_id (v : V) (vs : list (option V)) :
  v ∈ omap id vs ↔ Some v ∈ vs.
Proof.
  rewrite list_elem_of_omap. split.
  - intros (x & Hx & Hid). simpl in Hid. by subst.
  - intros Hin. by exists (Some v).
Qed.

Lemma nunique_distinct_values (vs : list (option V)) :
  distinct_values vs (nunique vs).
Proof.
  exists (remove_dups (omap id vs)). split; [apply NoDup_remove_dups|].
  split; [|done]. intros v. by rewrite elem_of_remove_dups, elem_of_omap_id.
Qed.

Lemma distinct_values_nunique (vs : list (option V)) (n : Z) :
  distinct_values vs n → n = nunique vs.
Proof.
  intros (l & Hnd & Hl & ->). unfold nunique. f_equal.
  apply Permutation_length, NoDup_Permutation;
    [done | apply NoDup_remove_dups|].
  intros v. by rewrite Hl, elem_of_remove_dups, elem_of_omap_id.
Qed.

Lemma distinct_values_sum (s : list (string * list (option V))) (ds : list Z) :
  Forall2 distinct_values s.*2 ds →
  sum_Z ds = sum_Z ((λ cv, nunique cv.2) <$> s).
Proof.
  revert ds. induction s as [|[c vs] s IH]; intros ds Hall; simpl in *.
  - by apply Forall2_nil_inv_l in Hall as ->.
  - apply Forall2_cons_inv_l in Hall as (d & ds' & Hd & Hds & ->).
    simpl. rewrite (distinct_values_nunique _ _ Hd). f_equal. by apply IH.
Qed.
End FrameFacts.

(** ** [compute_metrics] *)

Section MetricsFacts.
Context {V : Type} `{EqDecision V}.
Variable rnd : Q → Q.

Lemma truediv_nonzero (x : Q) (z : Z) :
  z ≠ 0 → truediv rnd x (inject_Z z) = Ok (fdiv rnd x (inject_Z z)).
Proof.
  intros Hz. unfold truediv.
  destruct (Qeq_bool (inject_Z z) 0) eqn:Hq; [|done].
  apply Qeq_bool_iff in Hq. unfold Qeq in Hq. simpl in Hq. lia.
Qed.

Lemma truediv_zero (x : Q) : truediv rnd x (inject_Z 0) = Raise ZeroDivisionError.
Proof. reflexivity. Qed.

Lemma column_loop_ok (data : DataFrame V) (total_rows : Z) (cols : list string)
    (acc : dict ColumnMetrics) :
  total_rows ≠ 0 →
  (∀ c, c ∈ cols → c ∈ columns data) →
  ∃ cs, column_loop rnd data total_rows cols acc = Ok cs ∧
    (∀ c, c ∈ cols →
       ∃ s, getitem data c = Ok s ∧
            dict_get c cs = Some (column_entry rnd total_rows s)) ∧
    (∀ c, c ∉ cols → dict_get c cs = dict_get c acc).
Proof.
  intros Hrows. revert acc.
  induction cols as [|column cols IH]; intros acc Hsub.
  - exists acc. split; [done|]. split; [|done].
    intros c Hc. by apply elem_of_nil in Hc.
  - destruct (lookup_series_name column (series data)) as (s & Hs & _).
    { apply Hsub, elem_of_cons. by left. }
    simpl. unfold getitem at 1. rewrite Hs. simpl.
    rewrite !truediv_nonzero by done. simpl.
    edestruct (IH (dict_set column (column_entry rnd total_rows s) acc))
      as (cs & Hcs & Hin & Hout).
    { intros c Hc. apply Hsub, elem_of_cons. by right. }
    exists cs. split; [exact Hcs|]. split.
    + intros c Hc. destruct (decide (c ∈ cols)) as [Hc'|Hc']; [by apply Hin|].
      apply elem_of_cons in Hc as [->|Hc]; [|done].
      exists s. split; [exact Hs|].
      rewrite (Hout _ Hc'). apply dict_get_set_eq.
    + intros c Hc. apply not_elem_of_cons in Hc as [Hne Hc].
      rewrite (Hout _ Hc). by apply dict_get_set_ne.
Qed.

(** On a frame with rows and at least one column [compute_metrics]
    returns, and these are the fields of what it returns. *)
Lemma compute_metrics_nonempty (data : DataFrame V) (name : string) :
  nrows data ≠ 0%nat → series data ≠ [] →
  ∃ m, compute_metrics rnd data name = Ok m ∧
    table_name m = name ∧ error m = None ∧ total_rows m = len data ∧
    missing_values m = sum_Z ((λ cv, isnull_sum cv.2) <$> series data) ∧
    duplicate_rows m = sum_bool (duplicated data) ∧
    null_values_percentage m =
      fmul rnd (fdiv rnd (inject_Z (sum_Z ((λ cv, isnull_sum cv.2) <$> series data)))
                  (inject_Z (len data * Z.of_nat (length (columns data))))) 100 ∧
    completeness_percentage m =
      fmul rnd (fsub rnd 1
                  (fdiv rnd (inject_Z (sum_Z ((λ cv, isnull_sum cv.2) <$> series data)))
                     (inject_Z (len data * Z.of_nat (length (columns data)))))) 100 ∧
    uniqueness_percentage m =
      fmul rnd (fdiv rnd (inject_Z (sum_Z ((λ cv, nunique cv.2) <$> series data)))
                  (inject_Z (len data * Z.of_nat (length (columns data))))) 100 ∧
    (∀ c, c ∈ columns data →
       ∃ s, getitem data c = Ok s ∧
            dict_get c (metric_columns m) = Some (column_entry rnd (len data) s)) ∧
    (∀ c, c ∉ columns data → dict_get c (metric_columns m) = None).
Proof.
  intros Hrows Hcols.
  assert (len data ≠ 0) as Hlen by (unfold len; lia).
  assert (len data * Z.of_nat (length (columns data)) ≠ 0) as Hcells.
  { unfold columns. rewrite length_fmap.
    destruct (series data); [done|]. simpl length. lia. }
  destruct (column_loop_ok data (len data) (columns data) []) as (cs & Hcs & Hin & Hout);
    [done | done |].
  unfold compute_metrics. rewrite decide_False by done.
  rewrite !truediv_nonzero by done. simpl. rewrite Hcs. simpl.
  eexists. split; [reflexivity|]. simpl. repeat split; try done.
Qed.

Lemma compute_metrics_empty (data : DataFrame V) (name : string) :
  nrows data = 0%nat →
  compute_metrics rnd data name =
    Ok {| table_name := name; error := Some "Table is empty"%string;
          total_rows := 0; missing_values := 0; duplicate_rows := 0;
          null_values_percentage := 0; completeness_percentage := 0;
          uniqueness_percentage := 0; metric_columns := [] |}.
Proof.
  intros Hrows. unfold compute_metrics, len. rewrite Hrows.
  by rewrite decide_True.
Qed.

(** On what [SELECT *] gives, [compute_metrics] never raises and echoes
    the name it was given. *)
Lemma compute_metrics_ok (data : DataFrame V) (name : string) :
  table_frame data →
  ∃ m, compute_metrics rnd data name = Ok m ∧ table_name m = name.
Proof.
  intros (_ & Hcols & _). destruct (decide (nrows data = 0%nat)) as [Hz|Hnz].
  - eexists. split; [by apply compute_metrics_empty | done].
  - destruct (compute_metrics_nonempty data name Hnz Hcols) as (m & Hm & Hn & _).
    by exists m.
Qed.

Lemma compute_metrics_table_name (data : DataFrame V) (name : string) (m : Metrics) :
  compute_metrics rnd data name = Ok m → table_name m = name.
Proof.
  unfold compute_metrics. destruct (decide (len data = 0)).
  - by intros [= <-].
  - repeat match goal with
           | |- context [truediv ?r ?x ?y] => destruct (truediv r x y); [|done]; simpl
           end.
    destruct (column_loop _ _ _ _ _); [|done]. simpl. by intros [= <-].
Qed.
End MetricsFacts.

(** ** Rounding *)

Section Rounding.
Local Open Scope Q_scope.

(** The standard model of floating-point arithmetic: every operation
    returns the exact result with a relative error of at most [u]. *)
Variable rnd : Q → Q.
Variable u : Q.
Hypothesis u_range : 0 <= u ∧ u <= 1 # 2.
Hypothesis rnd_relative : ∀ x, Qabs (rnd x - x) <= u * Qabs x.

Lemma rnd_error (x b : Q) :
  Qabs x <= b → - (u * b) <= rnd x - x ∧ rnd x - x <= u * b.
Proof.
  intros Hb. pose proof (rnd_relative x) as Hx.
  apply Qabs_Qle_condition in Hx as [Hlo Hhi].
  assert (u * Qabs x <= u * b) as Hub.
  { apply Qmult_le_compat_nonneg; split; try lra; apply Qabs_nonneg. }
  split; lra.
Qed.

(** [(1 - q) * 100] and [q * 100], each rounded as the code computes
    them, add up to 100 within [400 * u]. *)
Lemma complement_within_tolerance (q : Q) :
  0 <= q ∧ q <= 1 →
  Qabs (fmul rnd (fsub rnd 1 (rnd q)) 100 + fmul rnd (rnd q) 100 - 100) <= 400 * u.
Proof.
  intros [Hq0 Hq1]. destruct u_range as [Hu0 Hu1]. unfold fmul, fsub.
  destruct (rnd_error q q) as [Hq'lo Hq'hi].
  { rewrite Qabs_pos by done. lra. }
  assert (0 <= u * q ∧ u * q <= u * 1 ∧ u * q <= 1 * q) as (He0 & He1 & He2).
  { split; [by apply Qmult_le_0_compat|].
    split; apply Qmult_le_compat_nonneg; split; lra. }
  set (e := u * q) in *. clearbody e.
  destruct (rnd_error (1 - rnd q) 1) as [Hslo Hshi].
  { apply Qabs_Qle_condition. split; lra. }
  destruct (rnd_error (rnd (1 - rnd q) * 100) 150) as [Hclo Hchi].
  { apply Qabs_Qle_condition. split; lra. }
  destruct (rnd_error (rnd q * 100) 150) as [Hnlo Hnhi].
  { apply Qabs_Qle_condition. split; lra. }
  apply Qabs_Qle_condition. split; lra.
Qed.

Lemma ratio_in_unit_interval (a b : Z) :
  (0 ≤ a ≤ b)%Z → (0 < b)%Z → 0 <= inject_Z a / inject_Z b ∧ inject_Z a / inject_Z b <= 1.
Proof.
  intros [Ha Hab] Hb.
  assert (0 < inject_Z b) as Hb'.
  { change (inject_Z 0 < inject_Z b). by rewrite <- Zlt_Qlt. }
  split.
  - apply Qle_shift_div_l; [done|]. rewrite Qmult_0_l.
    change (inject_Z 0 <= inject_Z a). by rewrite <- Zle_Qle.
  - apply Qle_shift_div_r; [done|]. rewrite Qmult_1_l.
    by rewrite <- Zle_Qle.
Qed.
End Rounding.

(** *** The binary64 rounding is a rounding of relative error [2^-53] *)

Lemma round_half_even_error (q : Q) :
  (Qabs (inject_Z (round_half_even q) - q) <= 1 # 2)%Q.
Proof.
  pose proof (Qfloor_le q) as Hlo. pose proof (Qlt_floor q) as Hhi.
  rewrite inject_Z_plus in Hhi. change (inject_Z 1) with 1%Q in Hhi.
  apply Qabs_Qle_condition. unfold round_half_even.
  destruct (q - inject_Z (Qfloor q) ?= 1 # 2)%Q eqn:Hc.
  - apply Qeq_alt in Hc. destruct (Z.even (Qfloor q)).
    + split; lra.
    + rewrite inject_Z_plus. change (inject_Z 1) with 1%Q. split; lra.
  - apply Qlt_alt in Hc. split; lra.
  - apply Qgt_alt in Hc. rewrite inject_Z_plus. change (inject_Z 1) with 1%Q.
    split; lra.
Qed.

Lemma Qdiv_le_mono (a b c d : Q) :
  (0 <= a → a <= c → 0 < d → d <= b → a / b <= c / d)%Q.
Proof.
  intros Ha Hac Hd Hdb.
  assert (0 < b)%Q as Hb by lra.
  apply Qle_shift_div_r; [done|].
  assert (c / d * b == c * (b / d))%Q as -> by (field; lra).
  assert (1 <= b / d)%Q as H1.
  { apply Qle_shift_div_l; [done|]. lra. }
  assert (c * 1 <= c * (b / d))%Q as H2.
  { apply Qmult_le_compat_nonneg; split; lra. }
  lra.
Qed.

(** [2 ^ float_exponent x] is at most [|x|]. *)
Lemma float_exponent_le (x : Q) :
  (¬ x == 0 → 2 ^ float_exponent x <= Qabs x)%Q.
Proof.
  intros Hx. unfold float_exponent.
  set (a := Z.abs (Qnum x)). set (d := Z.pos (Qden x)).
  destruct (Qle_bool (2 ^ (Z.log2 a - Z.log2 d)) (Qabs x)) eqn:Htest.
  - by apply Qle_bool_iff.
  - assert (0 < a) as Ha.
    { unfold a. destruct x as [n p]. unfold Qeq in Hx. simpl in *. lia. }
    assert (0 < d) as Hd by (unfold d; lia).
    destruct (Z.log2_spec a Ha) as [Hla _].
    destruct (Z.log2_spec d Hd) as [_ Hld].
    pose proof (Z.log2_nonneg a) as Hla0. pose proof (Z.log2_nonneg d) as Hld0.
    assert (Qabs x == inject_Z a / inject_Z d)%Q as ->.
    { destruct x as [n p]. unfold a, d. simpl. apply Qmake_Qdiv. }
    assert (Z.log2 a - Z.log2 d - 1 = Z.log2 a - Z.succ (Z.log2 d)) as -> by lia.
    rewrite Qpower_minus by done.
    change 2%Q with (inject_Z 2).
    rewrite <- !Zpower_Qpower by lia.
    apply Qdiv_le_mono.
    + change 0%Q with (inject_Z 0). rewrite <- Zle_Qle. lia.
    + by rewrite <- Zle_Qle.
    + change 0%Q with (inject_Z 0). by rewrite <- Zlt_Qlt.
    + rewrite <- Zle_Qle. lia.
Qed.

(** A significand [y] of at least [2^52], rounded to the integer [r] and
    scaled back by [P], is off by at most [2^-53] of the number. *)
Lemma scaled_error (t y P r : Q) (neg : bool) :
  (0 < P → t == y * P → 4503599627370496 <= y →
   Qabs (r - y) <= 1 # 2 →
   Qabs ((if neg then -1 else 1) * r * P - (if neg then -1 else 1) * t)
     <= (1 # 9007199254740992) * t)%Q.
Proof.
  intros HP Ht Hy Hr. apply Qabs_Qle_condition in Hr as [Hlo Hhi].
  assert ((r - y) * P <= (1 # 2) * P)%Q as H1.
  { apply Qmult_le_compat_r; lra. }
  assert (- (1 # 2) * P <= (r - y) * P)%Q as H2.
  { apply Qmult_le_compat_r; lra. }
  assert ((1 # 2) * P <= (1 # 9007199254740992) * y * P)%Q as H3.
  { apply Qmult_le_compat_r; lra. }
  rewrite Ht. apply Qabs_Qle_condition.
  set (e := ((r - y) * P)%Q) in *.
  set (b := ((1 # 9007199254740992) * y * P)%Q) in *.
  assert ((1 # 9007199254740992) * (y * P) == b)%Q as -> by (unfold b; ring).
  destruct neg.
  - assert (-1 * r * P - -1 * (y * P) == - e)%Q as -> by (unfold e; ring).
    split; lra.
  - assert (1 * r * P - 1 * (y * P) == e)%Q as -> by (unfold e; ring).
    split; lra.
Qed.

Lemma round64_relative (x : Q) :
  (Qabs (round64 x - x) <= (1 # 9007199254740992) * Qabs x)%Q.
Proof.
  unfold round64. destruct (Qeq_bool x 0) eqn:Hzero.
  - apply Qeq_bool_iff in Hzero. rewrite Hzero. by vm_compute.
  - apply Qeq_bool_neq in Hzero.
    pose proof (float_exponent_le x Hzero) as Hexp.
    set (k := float_exponent x - 52).
    assert (0 < 2 ^ k)%Q as HP by (by apply Qpower_0_lt).
    set (y := (Qabs x / 2 ^ k)%Q).
    assert (Qabs x == y * 2 ^ k)%Q as Ht by (unfold y; field; lra).
    assert (4503599627370496 <= y)%Q as Hy.
    { unfold y. apply Qle_shift_div_l; [done|].
      assert (4503599627370496 == 2 ^ 52)%Q as -> by reflexivity.
      rewrite <- Qpower_plus by done.
      by replace (52 + k) with (float_exponent x) by (unfold k; lia). }
    pose proof (round_half_even_error y) as Hr.
    destruct (Qle_bool 0 x) eqn:Hsign.
    + apply Qle_bool_iff in Hsign.
      pose proof (scaled_error (Qabs x) y (2 ^ k) (inject_Z (round_half_even y)) false
                    HP Ht Hy Hr) as Hgoal.
      cbv iota in Hgoal. rewrite (Qabs_pos x Hsign) in Hgoal at 1.
      assert (1 * x == x)%Q as Hx by ring. by rewrite Hx in Hgoal.
    + assert (x <= 0)%Q as Hneg.
      { destruct (Qlt_le_dec 0 x) as [Hpos|]; [|done].
        apply Qlt_le_weak, Qle_bool_iff in Hpos. congruence. }
      pose proof (scaled_error (Qabs x) y (2 ^ k) (inject_Z (round_half_even y)) true
                    HP Ht Hy Hr) as Hgoal.
      cbv iota in Hgoal. rewrite (Qabs_neg x Hneg) in Hgoal at 1.
      assert (-1 * - x == x)%Q as Hx by ring. by rewrite Hx in Hgoal.
Qed.

(** ** The metrics of one table *)

(** C1. For a non-empty table, the table-level [uniqueness_percentage] is
    the sum over the columns of their distinct-value counts, divided by
    [total_cells] (rows times columns), times 100; the
    [uniqueness_percentage] of each column is that column's distinct-value
    count divided by the row count, times 100.  Distinct values are counted
    without the nulls; the divisions and products are those of the float
    arithmetic. *)
Theorem compute_metrics_uniqueness {V : Type} `{EqDecision V} (rnd : Q → Q)
    (data : DataFrame V) (name : string) :
  table_frame data → nrows data ≠ 0%nat →
  ∃ m, compute_metrics rnd data name = Ok m ∧
    (∀ ds, Forall2 distinct_values (series data).*2 ds →
       uniqueness_percentage m =
         fmul rnd (fdiv rnd (inject_Z (sum_Z ds))
                     (inject_Z (len data * Z.of_nat (length (columns data))))) 100) ∧
    (∀ c s d, (c, s) ∈ series data → distinct_values s d →
       ∃ cm, dict_get c (metric_columns m) = Some cm ∧
         col_uniqueness_percentage cm =
           fmul rnd (fdiv rnd (inject_Z d) (inject_Z (len data))) 100).
Proof.
  intros (Hnd & Hcols & _) Hrows.
  destruct (compute_metrics_nonempty rnd data name Hrows Hcols)
    as (m & Hm & _ & _ & _ & _ & _ & _ & _ & Huniq & Hin & _).
  exists m. split; [done|]. split.
  - intros ds Hds. by rewrite (distinct_values_sum _ _ Hds).
  - intros c s d Hcs Hd.
    destruct (Hin c) as (s' & Hs' & Hget).
    { apply list_elem_of_fmap. by exists (c, s). }
    unfold getitem in Hs'. rewrite (lookup_series_elem c s) in Hs' by done.
    injection Hs' as <-. eexists. split; [exact Hget|].
    simpl. by rewrite (distinct_values_nunique _ _ Hd).
Qed.

Lemma sample_frame_table : table_frame sample_frame.
Proof.
  split; [|split; [done|]].
  - apply (bool_decide_unpack _). by vm_compute.
  - by repeat constructor.
Qed.

Lemma compute_metrics_uniqueness_witness :
  ∃ m, compute_metrics round64 sample_frame "t" = Ok m ∧
    (∀ ds, Forall2 distinct_values (series sample_frame).*2 ds →
       uniqueness_percentage m =
         fmul round64 (fdiv round64 (inject_Z (sum_Z ds))
                     (inject_Z (len sample_frame *
                                Z.of_nat (length (columns sample_frame))))) 100) ∧
    (∀ c s d, (c, s) ∈ series sample_frame → distinct_values s d →
       ∃ cm, dict_get c (metric_columns m) = Some cm ∧
         col_uniqueness_percentage cm =
           fmul round64 (fdiv round64 (inject_Z d) (inject_Z (len sample_frame))) 100).
Proof.
  apply (compute_metrics_uniqueness round64 sample_frame "t").
  - exact sample_frame_table.
  - simpl. lia.
Defined.

(** C3. For a table with zero rows, [compute_metrics] returns the record
    with [total_rows], [missing_values], [duplicate_rows] and the three
    percentages all 0 and the marker "Table is empty"; it does not reach a
    division, so no division by zero is performed. *)
Theorem compute_metrics_empty_table {V : Type} `{EqDecision V} (rnd : Q → Q)
    (data : DataFrame V) (name : string) :
  len data = 0 →
  compute_metrics rnd data name =
    Ok {| table_name := name; error := Some "Table is empty"%string;
          total_rows := 0; missing_values := 0; duplicate_rows := 0;
          null_values_percentage := 0; completeness_percentage := 0;
          uniqueness_percentage := 0; metric_columns := [] |} ∧
  compute_metrics rnd data name ≠ Raise ZeroDivisionError.
Proof.
  intros Hlen. assert (nrows data = 0%nat) as Hrows by (unfold len in Hlen; lia).
  by rewrite (compute_metrics_empty rnd data name Hrows).
Qed.

Lemma compute_metrics_empty_table_witness :
  compute_metrics round64 empty_frame "t" =
    Ok {| table_name := "t"; error := Some "Table is empty"%string;
          total_rows := 0; missing_values := 0; duplicate_rows := 0;
          null_values_percentage := 0; completeness_percentage := 0;
          uniqueness_percentage := 0; metric_columns := [] |} ∧
  compute_metrics round64 empty_frame "t" ≠ Raise ZeroDivisionError.
Proof.
  apply (compute_metrics_empty_table round64 empty_frame "t"). reflexivity.
Defined.

(** C4. For a non-empty table, [completeness_percentage] and
    [null_values_percentage] add up to 100 within floating-point tolerance:
    when every float operation has a relative error of at most [u], the sum
    of the two stored values is within [400 * u] of 100 (and is exactly 100
    in exact arithmetic, [u = 0]). *)
Theorem completeness_null_complementary {V : Type} `{EqDecision V}
    (rnd : Q → Q) (u : Q) (data : DataFrame V) (name : string) :
  (0 <= u ∧ u <= 1 # 2)%Q →
  (∀ x, Qabs (rnd x - x) <= u * Qabs x)%Q →
  table_frame data → nrows data ≠ 0%nat →
  ∃ m, compute_metrics rnd data name = Ok m ∧
    (Qabs (completeness_percentage m + null_values_percentage m - 100) <= 400 * u)%Q.
Proof.
  intros Hu Hrnd (_ & Hcols & Hlen) Hrows.
  destruct (compute_metrics_nonempty rnd data name Hrows Hcols)
    as (m & Hm & _ & _ & _ & _ & _ & Hnull & Hcompl & _).
  exists m. split; [done|]. rewrite Hnull, Hcompl. unfold fdiv.
  apply (complement_within_tolerance rnd u Hu Hrnd).
  pose proof (missing_values_bounds _ _ Hlen) as Hb.
  unfold columns, len. rewrite length_fmap.
  apply ratio_in_unit_interval; [done|].
  destruct (series data); [done|]. simpl length. lia.
Qed.

Lemma completeness_null_complementary_witness :
  ∃ m, compute_metrics round64 sample_frame "t" = Ok m ∧
    (Qabs (completeness_percentage m + null_values_percentage m - 100)
       <= 400 * (1 # 9007199254740992))%Q.
Proof.
  apply (completeness_null_complementary round64 (1 # 9007199254740992)
           sample_frame "t").
  - split; [done | by vm_compute].
  - exact round64_relative.
  - exact sample_frame_table.
  - simpl. lia.
Defined.

(** ** The batch analysis *)

Section ServiceFacts.
Context {V : Type} `{EqDecision V}.
Variable rnd : Q → Q.
Variable client : list string → string → result string.
Variable db : gmap string (DataFrame V).
Variable read_sql_query : string → result (DataFrame V).

Lemma analysis_loop_cons (existing_tables : gset string) (t : string)
    (names : list string) (results : list Item) (sent : list string) :
  analysis_loop rnd client read_sql_query existing_tables (t :: names) results sent =
    if decide (t ∉ existing_tables) then
      analysis_loop rnd client read_sql_query existing_tables names
        (results ++ [TableNotFound t]) sent
    else
      match get_data_from_table read_sql_query t with
      | Raise e => (Raise e, sent)
      | Ok data =>
          match compute_metrics rnd data t with
          | Raise e => (Raise e, sent)
          | Ok m =>
              match client sent (generate_llm_prompt m) with
              | Raise e => (Raise e, sent ++ [generate_llm_prompt m])
              | Ok a =>
                  analysis_loop rnd client read_sql_query existing_tables names
                    (results ++ [Analysed m a]) (sent ++ [generate_llm_prompt m])
              end
          end
      end.
Proof.
  cbn [analysis_loop]. destruct (decide _); [done|].
  destruct (get_data_from_table read_sql_query t) as [data|e]; [|done].
  cbn [mbind result_bind].
  destruct (compute_metrics rnd data t) as [m|e]; [|done].
  unfold get_llm_analysis. by destruct (client sent (generate_llm_prompt m)).
Qed.

(** Whatever a run of the loop returns extends [results] by one item per
    name, in order, and the log by the prompts of the analysed items. *)
Lemma analysis_loop_inv (names : list string) (results out : list Item)
    (sent sent' : list string) :
  analysis_loop rnd client read_sql_query (dom db) names results sent
    = (Ok out, sent') →
  ∃ items, out = results ++ items ∧
    Forall2 (item_for rnd client db read_sql_query) names items ∧
    sent' = sent ++ prompts_sent items.
Proof.
  revert results sent. induction names as [|t names IH]; intros results sent Hrun.
  - simpl in Hrun. injection Hrun as <- <-. exists [].
    by rewrite !app_nil_r.
  - rewrite analysis_loop_cons in Hrun.
    destruct (decide (t ∉ dom db)) as [Hout|Hin].
    + apply IH in Hrun as (items & -> & Hitems & ->).
      exists (TableNotFound t :: items). rewrite <- app_assoc. split; [done|].
      split; [|done]. constructor; [|done]. by left.
    + apply dec_stable in Hin.
      destruct (get_data_from_table read_sql_query t) as [data|] eqn:Hdata; [|done].
      destruct (compute_metrics rnd data t) as [m|] eqn:Hm; [|done].
      destruct (client sent (generate_llm_prompt m)) as [a|] eqn:Ha; [|done].
      apply IH in Hrun as (items & -> & Hitems & ->).
      exists (Analysed m a :: items). rewrite <- !app_assoc. split; [done|].
      split; [|done]. constructor; [|done].
      right. by exists data, m, a, sent.
Qed.

(** The loop returns when the rows of every requested table of the
    catalog are read, as a frame [SELECT *] can give, and the service
    answers every request. *)
Lemma analysis_loop_returns (names : list string) (results : list Item)
    (sent : list string) :
  (∀ t, t ∈ names → t ∈ dom db →
     ∃ data, get_data_from_table read_sql_query t = Ok data ∧ table_frame data) →
  (∀ s p, ∃ a, client s p = Ok a) →
  ∃ out sent',
    analysis_loop rnd client read_sql_query (dom db) names results sent
      = (Ok out, sent').
Proof.
  intros Hread Hclient. revert results sent.
  induction names as [|t names IH]; intros results sent.
  - by eexists _, _.
  - assert (∀ t', t' ∈ names → t' ∈ dom db →
      ∃ data, get_data_from_table read_sql_query t' = Ok data ∧ table_frame data)
      as Hread'.
    { intros t' Ht'. apply Hread, elem_of_cons. by right. }
    rewrite analysis_loop_cons.
    destruct (decide (t ∉ dom db)) as [Hout|Hin]; [by apply IH|].
    apply dec_stable in Hin.
    destruct (Hread t) as (data & -> & Hframe); [apply elem_of_cons; by left|done|].
    destruct (compute_metrics_ok rnd data t Hframe) as (m & -> & _).
    destruct (Hclient sent (generate_llm_prompt m)) as [a ->].
    by apply IH.
Qed.

(** The results handed to the loop are a prefix of what it returns. *)
Lemma analysis_loop_results (names : list string) (results : list Item)
    (sent : list string) :
  analysis_loop rnd client read_sql_query (dom db) names results sent =
    match analysis_loop rnd client read_sql_query (dom db) names [] sent with
    | (Ok r, s) => (Ok (results ++ r), s)
    | (Raise e, s) => (Raise e, s)
    end.
Proof.
  revert results sent. induction names as [|t names IH]; intros results sent.
  - simpl. by rewrite app_nil_r.
  - rewrite !analysis_loop_cons. destruct (decide (t ∉ dom db)).
    + rewrite (IH (results ++ [TableNotFound t])), (IH ([] ++ [TableNotFound t])).
      destruct (analysis_loop _ _ _ _ names [] sent) as [[r|e] s]; [|done].
      by rewrite <- app_assoc.
    + destruct (get_data_from_table read_sql_query t) as [data|e]; [|done].
      destruct (compute_metrics rnd data t) as [m|e]; [|done].
      destruct (client sent (generate_llm_prompt m)) as [a|e]; [|done].
      rewrite (IH (results ++ [Analysed m a])), (IH ([] ++ [Analysed m a])).
      destruct (analysis_loop _ _ _ _ names [] _) as [[r|e] s']; [|done].
      by rewrite <- app_assoc.
Qed.

Lemma analysis_loop_app (names1 names2 : list string) (results : list Item)
    (sent : list string) :
  analysis_loop rnd client read_sql_query (dom db) (names1 ++ names2) results sent =
    match analysis_loop rnd client read_sql_query (dom db) names1 results sent with
    | (Ok r, s) => analysis_loop rnd client read_sql_query (dom db) names2 r s
    | (Raise e, s) => (Raise e, s)
    end.
Proof.
  revert results sent. induction names1 as [|t names1 IH]; intros results sent.
  - done.
  - rewrite <- app_comm_cons, !analysis_loop_cons.
    destruct (decide (t ∉ dom db)); [apply IH|].
    destruct (get_data_from_table read_sql_query t) as [data|e]; [|done].
    destruct (compute_metrics rnd data t) as [m|e]; [|done].
    destruct (client sent (generate_llm_prompt m)) as [a|e]; [|done].
    apply IH.
Qed.

(** A run that raises stopped at a table of the catalog, after the names
    before it were answered: the exception is the one of reading that
    table, of computing its metrics, or of the request for its summary,
    the last request sent. *)
Lemma analysis_loop_failure (names : list string) (results : list Item)
    (sent sent' : list string) (e : exn) :
  analysis_loop rnd client read_sql_query (dom db) names results sent
    = (Raise e, sent') →
  ∃ names1 t names2 items,
    names = names1 ++ t :: names2 ∧
    analysis_loop rnd client read_sql_query (dom db) names1 results sent
      = (Ok (results ++ items), sent ++ prompts_sent items) ∧
    t ∈ dom db ∧
    ((get_data_from_table read_sql_query t = Raise e ∧
      sent' = sent ++ prompts_sent items) ∨
     (∃ data, get_data_from_table read_sql_query t = Ok data ∧
        compute_metrics rnd data t = Raise e ∧
        sent' = sent ++ prompts_sent items) ∨
     (∃ data m, get_data_from_table read_sql_query t = Ok data ∧
        compute_metrics rnd data t = Ok m ∧
        client (sent ++ prompts_sent items) (generate_llm_prompt m) = Raise e ∧
        sent' = sent ++ prompts_sent items ++ [generate_llm_prompt m])).
Proof.
  revert results sent.
  induction names as [|t names IH]; intros results sent Hrun; [done|].
  rewrite analysis_loop_cons in Hrun.
  destruct (decide (t ∉ dom db)) as [Hout|Hin].
  { apply IH in Hrun as (names1 & t' & names2 & items & -> & Hrun1 & Ht' & Hcase).
    exists (t :: names1), t', names2, (TableNotFound t :: items).
    split; [done|]. split; [|by split].
    rewrite analysis_loop_cons, decide_True by done.
    rewrite Hrun1, <- app_assoc. done. }
  apply dec_stable in Hin.
  destruct (get_data_from_table read_sql_query t) as [data|e'] eqn:Hdata.
  2:{ injection Hrun as <- <-. exists [], t, names, [].
      split; [done|]. split; [by rewrite !app_nil_r|]. split; [done|].
      left. by rewrite app_nil_r. }
  destruct (compute_metrics rnd data t) as [m|e'] eqn:Hm.
  2:{ injection Hrun as <- <-. exists [], t, names, [].
      split; [done|]. split; [by rewrite !app_nil_r|]. split; [done|].
      right. left. exists data. by rewrite app_nil_r. }
  destruct (client sent (generate_llm_prompt m)) as [a|e'] eqn:Ha.
  2:{ injection Hrun as <- <-. exists [], t, names, [].
      split; [done|]. split; [by rewrite !app_nil_r|]. split; [done|].
      right. right. exists data, m. by rewrite !app_nil_r. }
  apply IH in Hrun as (names1 & t' & names2 & items & -> & Hrun1 & Ht' & Hcase).
  exists (t :: names1), t', names2, (Analysed m a :: items).
  assert (sent ++ prompts_sent (Analysed m a :: items)
          = (sent ++ [generate_llm_prompt m]) ++ prompts_sent items) as Hsent.
  { by rewrite <- app_assoc. }
  split; [done|]. split.
  { rewrite analysis_loop_cons, decide_False by (by intros ?).
    rewrite Hdata, Hm, Ha, Hrun1, Hsent, <- app_assoc. done. }
  split; [done|].
  destruct Hcase as [[Hread ->]|[(data' & Hread & Hm' & ->)|
                                 (data' & m' & Hread & Hm' & Hfail & ->)]].
  - left. by rewrite Hsent.
  - right. left. exists data'. by rewrite Hsent.
  - right. right. exists data', m'. rewrite Hsent.
    split; [done|]. split; [done|]. split; [done|].
    by rewrite (app_assoc sent), Hsent, <- !app_assoc.
Qed.



Lemma item_for_table_name (t : string) (it : Item) :
  item_for rnd client db read_sql_query t it → item_table_name it = t.
Proof.
  intros [[_ ->]|(data & m & a & s & _ & _ & Hm & _ & ->)]; [done|].
  simpl. by apply compute_metrics_table_name in Hm.
Qed.

Lemma item_for_llm_analysis (t : string) (it : Item) :
  item_for rnd client db read_sql_query t it →
  (item_llm_analysis it = None ↔ t ∉ dom db) ∧
  (item_llm_analysis it = None ↔ it = TableNotFound t).
Proof.
  intros [[Hnone ->]|(data & m & a & s & Hin & _ & _ & _ & ->)]; simpl.
  - done.
  - split; (split; [done|]).
    + intros Hout. by destruct Hout.
    + done.
Qed.

Lemma prompts_sent_length (names : list string) (items : list Item) :
  Forall2 (item_for rnd client db read_sql_query) names items →
  length (prompts_sent items) = length (filter (λ t, t ∈ dom db) names).
Proof.
  induction 1 as [|t it names items Hit _ IH]; [done|].
  unfold prompts_sent in *. cbn [omap list_omap].
  destruct Hit as [[Hnone ->]|(data & m & a & s & Hin & _ & _ & _ & ->)]; simpl.
  - by rewrite filter_cons_False.
  - rewrite filter_cons_True by done. simpl. by f_equal.
Qed.
End ServiceFacts.

Lemma empty_frame_table : table_frame empty_frame.
Proof.
  split; [|split; [done|]].
  - apply (bool_decide_unpack _). by vm_compute.
  - by repeat constructor.
Qed.

(** On the sample database SQLite reads every table by its name. *)
Lemma sample_db_reads (t : string) :
  t ∈ dom sample_db →
  ∃ data, get_data_from_table sample_read_sql_query t = Ok data ∧ table_frame data.
Proof.
  unfold sample_db. rewrite dom_insert, dom_singleton, elem_of_union, !elem_of_singleton.
  intros [->| ->].
  - exists sample_frame. split; [done|]. apply sample_frame_table.
  - exists empty_frame. split; [done|]. apply empty_frame_table.
Qed.

Lemma sample_client_answers (s : list string) (p : string) :
  ∃ a, sample_client s p = Ok a.
Proof. by eexists. Qed.



(** C5, as the code has it.  The summarisation call is skipped, and
    [llm_analysis] left absent, exactly for the requested names that are not
    in the catalog; every analysed table has its prompt sent and the answer
    attached, whether or not its metrics record carries an [error] marker:
    the prompts a returning run sends are those of the items with metrics,
    in order. *)
Theorem summary_skipped_only_for_unknown_tables {V : Type} `{EqDecision V}
    (rnd : Q → Q) (client : list string → string → result string)
    (db : gmap string (DataFrame V))
    (read_sql_query : string → result (DataFrame V)) (names : list string)
    (sent sent' : list string) (results : list Item) :
  get_data_quality rnd client db read_sql_query (Some names) sent
    = (Ok results, sent') →
  sent' = sent ++ prompts_sent results ∧
  Forall2 (λ t it,
    (item_llm_analysis it = None ↔ t ∉ dom db) ∧
    (item_llm_analysis it = None ↔ it = TableNotFound t) ∧
    (∀ m, item_metrics it = Some m →
       ∃ a s, client s (generate_llm_prompt m) = Ok a ∧
              item_llm_analysis it = Some a))
    names results.
Proof.
  unfold get_data_quality. intros Hrun.
  apply analysis_loop_inv in Hrun as (items & -> & Hitems & ->). simpl.
  split; [done|]. eapply Forall2_impl; [exact Hitems|].
  intros t it Hit. destruct (item_for_llm_analysis _ _ _ _ _ _ Hit) as [H1 H2].
  split; [done|]. split; [done|].
  destruct Hit as [[_ ->]|(data & m & a & s & _ & _ & _ & Ha & ->)]; simpl; [done|].
  intros m' [= <-]. by exists a, s.
Qed.

Lemma summary_skipped_only_for_unknown_tables_witness :
  ∃ results sent',
    sent' = [] ++ prompts_sent results ∧
    Forall2 (λ t it,
      (item_llm_analysis it = None ↔ t ∉ dom sample_db) ∧
      (item_llm_analysis it = None ↔ it = TableNotFound t) ∧
      (∀ m, item_metrics it = Some m →
         ∃ a s, sample_client s (generate_llm_prompt m) = Ok a ∧
                item_llm_analysis it = Some a))
      ["ghost"; "orders"]%string results.
Proof.
  eexists _, _.
  apply (summary_skipped_only_for_unknown_tables round64 sample_client sample_db
           sample_read_sql_query ["ghost"; "orders"]%string []).
  vm_compute. reflexivity.
Defined.

(** C5 fails as stated: the empty table "orders" has the marker
    "Table is empty" in its metrics record, and yet its prompt is sent and
    the answer becomes its [llm_analysis]. *)
Lemma empty_table_is_summarised :
  ∃ m a prompt,
    get_data_quality round64 sample_client sample_db sample_read_sql_query
      (Some ["orders"]%string) []
      = (Ok [Analysed m a], [prompt]) ∧
    error m = Some "Table is empty"%string ∧
    item_error (Analysed m a) ≠ None ∧
    item_llm_analysis (Analysed m a) ≠ None ∧
    prompt = generate_llm_prompt m.
Proof.
  eexists _, _, _. split; [vm_compute; reflexivity|]. by repeat split.
Qed.

(** C6.  With the query parameter absent or empty the route hands [None]
    to [get_data_quality], whose [for] statement raises [TypeError]: no
    table is analysed and no item is returned. *)
Theorem data_quality_without_names_raises {V : Type} `{EqDecision V}
    (rnd : Q → Q) (client : list string → string → result string)
    (db : gmap string (DataFrame V))
    (read_sql_query : string → result (DataFrame V)) (sent : list string) :
  data_quality rnd client db read_sql_query None sent
    = (Raise (TypeError "'NoneType' object is not iterable"), sent) ∧
  data_quality rnd client db read_sql_query (Some ""%string) sent
    = (Raise (TypeError "'NoneType' object is not iterable"), sent).
Proof. by split. Qed.



(** ** The key-relation routes *)

Lemma foldl_dict_set_lookup {A} (f : string → A) (l : list string) (acc : dict A)
    (k : string) :
  dict_get k (foldl (λ d t, dict_set t (f t) d) acc l) =
    if decide (k ∈ l) then Some (f k) else dict_get k acc.
Proof.
  revert acc. induction l as [|t l IH]; intros acc.
  - simpl foldl. destruct (decide (k ∈ [])) as [Hin|_]; [|done].
    by apply elem_of_nil in Hin.
  - simpl foldl. rewrite IH.
    destruct (decide (k ∈ l)) as [Hin|Hout];
      destruct (decide (k ∈ t :: l)) as [Hin'|Hout']; try done.
    + exfalso. apply Hout', elem_of_cons. by right.
    + apply elem_of_cons in Hin' as [->|?]; [|done]. apply dict_get_set_eq.
    + apply not_elem_of_cons in Hout' as [Hne _]. by apply dict_get_set_ne.
Qed.

(** C7, as the code has it.  Both routes are computed from one call of
    [get_keys_relations], whose report has, for every table of the catalog,
    its primary keys and foreign keys.  [GET /get_keys_relations] returns
    [{key_relationships: report}]; the answer of [GET /keys_relation] is
    determined by the result of that same call and carries a [message]
    member, which the answer of the other route does not have. *)
Theorem key_relation_routes (inspector : Inspector) :
  get_keys_relations_endpoint inspector =
    JObject [("key_relationships", JObject (key_relations inspector))]%string ∧
  (∀ t, t ∈ get_table_names inspector →
     dict_get t (key_relations inspector) = Some (table_keys inspector t)) ∧
  (∀ t, t ∉ get_table_names inspector →
     dict_get t (key_relations inspector) = None) ∧
  (∀ inspector',
     get_keys_relations inspector' = get_keys_relations inspector →
     keys_relations inspector' = keys_relations inspector) ∧
  json_member "message" (keys_relations inspector)
    = Some (JString "Welcome to the FastAPI Service") ∧
  json_member "message" (get_keys_relations_endpoint inspector) = None ∧
  keys_relations inspector ≠ get_keys_relations_endpoint inspector.
Proof.
  split; [done|]. split; [|split; [|split; [|split; [done|split; [done|]]]]].
  - intros t Ht. unfold key_relations.
    rewrite (foldl_dict_set_lookup (table_keys inspector)). by rewrite decide_True.
  - intros t Ht. unfold key_relations.
    rewrite (foldl_dict_set_lookup (table_keys inspector)). by rewrite decide_False.
  - intros inspector' Heq. unfold keys_relations. by rewrite Heq.
  - intros Heq. apply (f_equal (json_member "message")) in Heq. done.
Qed.

(** C7 fails as stated: on the catalog with tables A and B the two routes
    answer differently. *)
Lemma key_relation_routes_differ :
  keys_relations sample_inspector ≠ get_keys_relations_endpoint sample_inspector.
Proof. intros Heq. vm_compute in Heq. discriminate Heq. Qed.

(** ** Ingestion *)

Section FrameUpdates.
Context {V : Type}.
Implicit Types (df : DataFrame V) (s : list (string * list (option V))).

Lemma filter_ext_elem {A} (P1 P2 : A → Prop)
    `{!∀ x, Decision (P1 x), !∀ x, Decision (P2 x)} (l : list A) :
  (∀ x, x ∈ l → (P1 x ↔ P2 x)) → filter P1 l = filter P2 l.
Proof.
  induction l as [|a l IH]; intros Hiff; [done|].
  assert (filter P1 l = filter P2 l) as Hl.
  { apply IH. intros x Hx. apply Hiff, elem_of_cons. by right. }
  assert (P1 a ↔ P2 a) as Ha by (apply Hiff, elem_of_cons; by left).
  destruct (decide (P1 a)) as [Hp|Hp].
  - rewrite (filter_cons_True P1) by done.
    rewrite (filter_cons_True P2) by (by apply Ha). by rewrite Hl.
  - rewrite (filter_cons_False P1) by done.
    rewrite (filter_cons_False P2) by (by rewrite <- Ha). by rewrite Hl.
Qed.

Lemma filter_all {A} (P : A → Prop) `{!∀ x, Decision (P x)} (l : list A) :
  (∀ x, x ∈ l → P x) → filter P l = l.
Proof.
  induction l as [|a l IH]; intros Hall; [done|].
  rewrite filter_cons_True by (apply Hall, elem_of_cons; by left).
  f_equal. apply IH. intros x Hx. apply Hall, elem_of_cons. by right.
Qed.

Lemma NoDup_filter_names (P : string * list (option V) → Prop)
    `{!∀ x, Decision (P x)} s :
  NoDup s.*1 → NoDup (filter P s).*1.
Proof.
  induction s as [|cv s IH]; intros Hnd; [done|].
  rewrite fmap_cons in Hnd. apply NoDup_cons in Hnd as [Hout Hnd].
  destruct (decide (P cv)).
  - rewrite filter_cons_True by done. rewrite fmap_cons.
    apply NoDup_cons. split; [|by apply IH].
    intros Hin. apply Hout. apply list_elem_of_fmap in Hin as (cv' & -> & Hcv').
    apply list_elem_of_filter in Hcv' as [_ Hcv'].
    by apply (list_elem_of_fmap_2 fst) in Hcv'.
  - rewrite filter_cons_False by done. by apply IH.
Qed.

(** The removal of the columns the model does not have keeps exactly the
    columns it has, whether or not there is something to remove. *)
Lemma drop_invalid_columns (table_columns : gset string) df :
  (if decide (list_to_set (columns df) ∖ table_columns ≠ (∅ : gset string))
   then drop_columns (list_to_set (columns df) ∖ table_columns) df else df)
  = mkFrame (nrows df)
      (filter (λ cv : string * list (option V), cv.1 ∈ table_columns) (series df)).
Proof.
  destruct df as [n s]. unfold drop_columns, columns. cbn [series nrows].
  destruct (decide _) as [_|Hempty]; f_equal.
  - apply filter_ext_elem. intros cv Hcv.
    apply (list_elem_of_fmap_2 fst) in Hcv.
    rewrite elem_of_difference, elem_of_list_to_set. split.
    + intros Hnot. destruct (decide (cv.1 ∈ table_columns)); [done|].
      exfalso. by apply Hnot.
    + by intros Hin [_ Hout].
  - symmetry. apply filter_all. intros cv Hcv.
    apply (list_elem_of_fmap_2 fst) in Hcv. apply dec_stable in Hempty.
    destruct (decide (cv.1 ∈ table_columns)) as [|Hout]; [done|].
    exfalso. apply (not_elem_of_empty (C:=gset string) cv.1).
    rewrite <- Hempty. apply elem_of_difference.
    split; [by apply elem_of_list_to_set | done].
Qed.

Lemma setitem_columns (col : string) (f : list (option V) → list (option V)) df :
  columns (setitem col f df) = columns df.
Proof.
  unfold columns, setitem. simpl. rewrite <- list_fmap_compose.
  apply list_fmap_ext. intros i cv _. simpl. by destruct (decide _).
Qed.

Lemma setitem_absent (col : string) (f : list (option V) → list (option V)) df :
  col ∉ columns df → setitem col f df = df.
Proof.
  destruct df as [n s]. unfold setitem, columns. simpl. intros Hout. f_equal.
  rewrite <- (list_fmap_id s) at 2. apply list_fmap_ext. intros i cv Hcv.
  destruct (decide _) as [<-|]; [|done]. exfalso. apply Hout.
  apply list_elem_of_lookup_2 in Hcv. by apply (list_elem_of_fmap_2 fst) in Hcv.
Qed.

(** A loop [for col in l: if col in df.columns: df[col] = f(df[col])]
    over distinct names converts exactly the columns named in [l]. *)
Lemma conversion_loop (f : list (option V) → list (option V)) (l : list string) df :
  NoDup l →
  foldl (λ df col, if decide (col ∈ columns df) then setitem col f df else df) df l
  = mkFrame (nrows df)
      ((λ cv : string * list (option V),
          if decide (cv.1 ∈ l) then (cv.1, f cv.2) else cv) <$> series df).
Proof.
  revert df. induction l as [|col l IH]; intros df Hnd.
  - destruct df as [n s]. cbn [foldl nrows series]. f_equal.
    rewrite <- (list_fmap_id s) at 1. apply list_fmap_ext. intros i cv _.
    destruct (decide (cv.1 ∈ [])) as [Hin|]; [by apply elem_of_nil in Hin | done].
  - apply NoDup_cons in Hnd as [Hcol Hnd]. simpl foldl.
    assert ((if decide (col ∈ columns df) then setitem col f df else df)
            = setitem col f df) as ->.
    { destruct (decide _); [done|]. symmetry. by apply setitem_absent. }
    rewrite (IH _ Hnd). unfold setitem at 1 2. simpl. f_equal.
    rewrite <- list_fmap_compose. apply list_fmap_ext. intros i cv _. simpl.
    destruct (decide (cv.1 = col)) as [Heq|Hne]; simpl.
    + rewrite decide_False by congruence.
      rewrite decide_True; [done | apply elem_of_cons; by left].
    + destruct (decide (cv.1 ∈ l)).
      * rewrite decide_True; [done | apply elem_of_cons; by right].
      * rewrite decide_False; [done | by apply not_elem_of_cons].
Qed.

Lemma to_dict_records_length df :
  series df ≠ [] → length (to_dict_records df) = nrows df.
Proof.
  unfold to_dict_records. destruct (series df); [done|]. intros _.
  by rewrite length_fmap, length_seq.
Qed.

Lemma to_dict_records_empty df : series df = [] → to_dict_records df = [].
Proof. unfold to_dict_records. by intros ->. Qed.

Lemma to_dict_records_lookup df (i : nat) (r : gmap string (option V)) :
  to_dict_records df !! i = Some r →
  (i < nrows df)%nat ∧
  r = foldl (λ (m : gmap string (option V)) (cv : string * list (option V)),
               <[cv.1 := default None (cv.2 !! i)]> m) ∅ (series df).
Proof.
  unfold to_dict_records. destruct (series df) as [|cv s]; [done|].
  rewrite list_lookup_fmap.
  destruct (seq 0 (nrows df) !! i) as [j|] eqn:Hj; [|done].
  apply lookup_seq in Hj as [-> Hlt]. simpl. by intros [= <-].
Qed.

Lemma record_lookup_absent s (i : nat) (m : gmap string (option V)) (c : string) :
  c ∉ s.*1 →
  foldl (λ (m : gmap string (option V)) (cv : string * list (option V)),
           <[cv.1 := default None (cv.2 !! i)]> m) m s !! c = m !! c.
Proof.
  revert m. induction s as [|cv s IH]; intros m Hout; [done|].
  rewrite fmap_cons in Hout. apply not_elem_of_cons in Hout as [Hne Hout].
  simpl. rewrite (IH _ Hout). by apply lookup_insert_ne.
Qed.

Lemma record_lookup_present s (i : nat) (m : gmap string (option V))
    (c : string) (vs : list (option V)) :
  NoDup s.*1 → (c, vs) ∈ s →
  foldl (λ (m : gmap string (option V)) (cv : string * list (option V)),
           <[cv.1 := default None (cv.2 !! i)]> m) m s !! c
  = Some (default None (vs !! i)).
Proof.
  revert m. induction s as [|cv s IH]; intros m Hnd Hin.
  - by apply elem_of_nil in Hin.
  - rewrite fmap_cons in Hnd. apply NoDup_cons in Hnd as [Hout Hnd].
    apply elem_of_cons in Hin as [<-|Hin]; simpl.
    + rewrite (record_lookup_absent s i _ c Hout). apply lookup_insert_eq.
    + by apply IH.
Qed.
End FrameUpdates.

Section IngestionFacts.
Variable float_repr : Qc → string.
Variable datetime_repr : Z → string.
Variable to_datetime : list (option value) → list (option Z).
Variable integrity_error :
  gmap string (list (gmap string (option value))) → string →
  list (gmap string (option value)) → option string.

Lemma id_columns_NoDup : NoDup id_columns.
Proof. apply (bool_decide_unpack _). by vm_compute. Qed.

Lemma id_columns_not_datetime (c : string) :
  c ∈ id_columns → is_datetime_column c = false.
Proof.
  unfold id_columns. intros Hc.
  repeat (apply elem_of_cons in Hc as [->|Hc]; [by vm_compute|]).
  by apply elem_of_nil in Hc.
Qed.

(** The mappings handed to the storage engine are the records of the
    frame that keeps, of the renamed columns, those the model has, each
    converted by [stored_column]. *)
Lemma records_for_eq (TableClass : Model) (df : DataFrame value) :
  NoDup (normalise <$> columns df) →
  records_for float_repr datetime_repr to_datetime TableClass df =
    to_dict_records
      (mkFrame (nrows df)
         ((λ cv : string * list (option value),
             (cv.1, stored_column float_repr datetime_repr to_datetime cv.1 cv.2))
          <$> filter (λ cv : string * list (option value),
                        cv.1 ∈ (list_to_set (name <$> table_columns TableClass)
                                  : gset string))
                (series (rename_columns normalise df)))).
Proof.
  intros Hnd. unfold records_for. cbv zeta.
  rewrite drop_invalid_columns.
  rewrite (conversion_loop _ _ _ id_columns_NoDup).
  set (kept := filter _ (series (rename_columns normalise df))).
  assert (NoDup kept.*1) as Hkept.
  { apply NoDup_filter_names.
    assert ((series (rename_columns normalise df)).*1 = normalise <$> columns df)
      as ->; [|done].
    unfold rename_columns, columns. cbn [series].
    apply list_eq. intros i. rewrite !list_lookup_fmap.
    by destruct (series df !! i). }
  cbn [nrows series].
  set (ids := (λ cv : string * list (option value),
                 if decide (cv.1 ∈ id_columns)
                 then (cv.1, astype_str float_repr datetime_repr cv.2) else cv)).
  assert ((ids <$> kept).*1 = kept.*1) as Hnames.
  { rewrite <- list_fmap_compose. apply list_fmap_ext. intros i cv _.
    unfold ids. simpl. by destruct (decide _). }
  rewrite conversion_loop.
  2:{ apply NoDup_filter. unfold columns. cbn [series]. by rewrite Hnames. }
  cbn [nrows series]. f_equal. f_equal.
  rewrite <- list_fmap_compose. apply list_fmap_ext. intros i cv Hcv. simpl.
  assert ((ids cv).1 = cv.1) as Hfst by (unfold ids; by destruct (decide _)).
  assert ((ids cv).1 ∈ columns (mkFrame (nrows (rename_columns normalise df)) (ids <$> kept)))
    as Hin.
  { unfold columns. cbn [series]. apply list_elem_of_fmap_2.
    apply list_elem_of_fmap_2. by eapply list_elem_of_lookup_2. }
  unfold stored_column.
  destruct (is_datetime_column cv.1) eqn:Hdt.
  - rewrite decide_True.
    2:{ apply list_elem_of_filter. split; [by rewrite Hfst | done]. }
    rewrite Hfst. f_equal. unfold ids. by destruct (decide _).
  - rewrite decide_False.
    2:{ intros [Hd _]%list_elem_of_filter. rewrite Hfst in Hd. congruence. }
    unfold ids. destruct cv as [c vs]. by destruct (decide _).
Qed.
End IngestionFacts.

Section UploadFacts.
Variable float_repr : Qc → string.
Variable datetime_repr : Z → string.
Variable to_datetime : list (option value) → list (option Z).
Variable integrity_error :
  gmap string (list (gmap string (option value))) → string →
  list (gmap string (option value)) → option string.
Variable read_csv : string → CsvRead.
Variable unmodelled_labels :
  Model → DataFrame value → gmap string (list (gmap string (option value))) →
  UploadResponse * gmap string (list (gmap string (option value))).

(** With a field the model has, the batch gives one mapping per row. *)
Lemma records_for_length (TableClass : Model) (df : DataFrame value) :
  NoDup (normalise <$> columns df) →
  (∃ c, c ∈ columns df ∧ normalise c ∈ name <$> table_columns TableClass) →
  length (records_for float_repr datetime_repr to_datetime TableClass df) = nrows df.
Proof.
  intros Hnd (c & Hc & Hmodel). rewrite records_for_eq by done.
  rewrite to_dict_records_length; [done|]. cbn [series].
  apply list_elem_of_fmap in Hc as ([c' vs] & -> & Hcv).
  intros Hnil. apply fmap_nil_inv in Hnil.
  assert ((normalise c', vs) ∈
            filter (λ cv : string * list (option value),
                      cv.1 ∈ (list_to_set (name <$> table_columns TableClass)
                                : gset string))
              (series (rename_columns normalise df))) as Hin.
  { apply list_elem_of_filter. split; [by apply elem_of_list_to_set|].
    unfold rename_columns. cbn [series].
    by apply (list_elem_of_fmap_2
                (λ cv : string * list (option value), (normalise cv.1, cv.2))
                _ (c', vs)). }
  rewrite Hnil in Hin. by apply elem_of_nil in Hin.
Qed.

(** Without one, every column is dropped and the batch gives no mapping. *)
Lemma records_for_nothing (TableClass : Model) (df : DataFrame value) :
  NoDup (normalise <$> columns df) →
  (∀ c, c ∈ columns df → normalise c ∉ name <$> table_columns TableClass) →
  records_for float_repr datetime_repr to_datetime TableClass df = [].
Proof.
  intros Hnd Hnone. rewrite records_for_eq by done.
  apply to_dict_records_empty. cbn [series].
  destruct (filter (λ cv : string * list (option value),
                      cv.1 ∈ (list_to_set (name <$> table_columns TableClass)
                                : gset string))
              (series (rename_columns normalise df))) as [|cv kept] eqn:Hkept; [done|].
  assert (cv ∈ cv :: kept) as Hcv by (apply elem_of_cons; by left).
  rewrite <- Hkept in Hcv. apply list_elem_of_filter in Hcv as [Hmodel Hcv].
  apply elem_of_list_to_set in Hmodel.
  unfold rename_columns in Hcv. cbn [series] in Hcv.
  apply list_elem_of_fmap in Hcv as (cv' & -> & Hcv'). simpl in Hmodel.
  exfalso. apply (Hnone cv'.1); [|done].
  unfold columns. by apply (list_elem_of_fmap_2 fst).
Qed.


(** A field the model has is stored under its normalised name, with the
    cell [stored_column] makes of it. *)
Lemma stored_field_present (TableClass : Model) (df : DataFrame value) (i : nat)
    (r : gmap string (option value)) (raw : string) (vs : list (option value)) :
  NoDup (normalise <$> columns df) →
  records_for float_repr datetime_repr to_datetime TableClass df !! i = Some r →
  (raw, vs) ∈ series df →
  normalise raw ∈ name <$> table_columns TableClass →
  r !! normalise raw =
    Some (default None
            (stored_column float_repr datetime_repr to_datetime (normalise raw) vs !! i)).
Proof.
  intros Hnd Hr Hin Hmodel. rewrite records_for_eq in Hr by done.
  apply to_dict_records_lookup in Hr as [_ ->]. cbn [series].
  apply record_lookup_present.
  - assert (∀ l : list (string * list (option value)),
      ((λ cv : string * list (option value),
          (cv.1, stored_column float_repr datetime_repr to_datetime cv.1 cv.2)) <$> l).*1
      = l.*1) as ->.
    { intros l. apply list_eq. intros j. rewrite !list_lookup_fmap.
      by destruct (l !! j). }
    apply NoDup_filter_names.
    assert ((series (rename_columns normalise df)).*1 = normalise <$> columns df)
      as ->; [|done].
    unfold rename_columns, columns. cbn [series].
    apply list_eq. intros j. rewrite !list_lookup_fmap.
    by destruct (series df !! j).
  - apply (list_elem_of_fmap_2
             (λ cv : string * list (option value),
                (cv.1, stored_column float_repr datetime_repr to_datetime cv.1 cv.2))
             _ (normalise raw, vs)).
    apply list_elem_of_filter. split; [by apply elem_of_list_to_set|].
    unfold rename_columns. cbn [series].
    by apply (list_elem_of_fmap_2
                (λ cv : string * list (option value), (normalise cv.1, cv.2))
                _ (raw, vs)).
Qed.

(** The cell stored for a field that is neither an identifier nor a date,
    for an identifier or phone field, and for a date field. *)
Lemma stored_column_cell (c : string) (vs : list (option value)) (i : nat)
    (x : option value) :
  vs !! i = Some x →
  (c ∉ id_columns → is_datetime_column c = false →
   default None (stored_column float_repr datetime_repr to_datetime c vs !! i) = x) ∧
  (c ∈ id_columns →
   default None (stored_column float_repr datetime_repr to_datetime c vs !! i)
   = Some (VStr (py_str float_repr datetime_repr x))) ∧
  (is_datetime_column c = true →
   stored_column float_repr datetime_repr to_datetime c vs
   = parse_datetimes to_datetime vs).
Proof.
  intros Hx. unfold stored_column. split; [|split].
  - intros Hid Hdt. rewrite decide_False by done. by rewrite Hdt, Hx.
  - intros Hid. rewrite decide_True by done.
    rewrite (id_columns_not_datetime _ Hid).
    unfold astype_str. by rewrite list_lookup_fmap, Hx.
  - intros Hdt. rewrite Hdt. destruct (decide (c ∈ id_columns)) as [Hid|]; [|done].
    apply id_columns_not_datetime in Hid. congruence.
Qed.

Lemma upload_accepted (tables : dict Model) (table_name : string)
    (TableClass : Model) (contents : string) (df : DataFrame value)
    (store : gmap string (list (gmap string (option value)))) :
  read_csv contents = CsvFrame df →
  dict_get table_name tables = Some TableClass →
  modelled_labels df →
  integrity_error store (tablename TableClass)
    (records_for float_repr datetime_repr to_datetime TableClass df) = None →
  upload_csv_with float_repr datetime_repr to_datetime integrity_error
    read_csv unmodelled_labels tables table_name contents store =
    (UploadMessage ("CSV uploaded successfully to " +:+ table_name),
     <[tablename TableClass :=
         default [] (store !! tablename TableClass) ++
         records_for float_repr datetime_repr to_datetime TableClass df]> store).
Proof.
  intros Hread Ht Hlabels Hok. unfold upload_csv_with.
  rewrite Hread, Ht, decide_True by done. cbv zeta. by rewrite Hok.
Qed.
End UploadFacts.

(** C8, as the code has it.  A designated identifier or phone column that
    the model has is stored as text, never as a number: each cell as the
    [str] of the value [pd.read_csv] made of it.  The text of the field is
    not kept.  In a column read as integers the field 007 is the integer 7
    and is stored as "7"; in a column read as floats (an integer column
    with a blank cell is) it is a float and is stored as the text of that
    float. *)
Theorem identifier_stored_as_text_of_parsed_value
    (float_repr : Qc → string) (datetime_repr : Z → string)
    (to_datetime : list (option value) → list (option Z))
    (integrity_error :
       gmap string (list (gmap string (option value))) → string →
       list (gmap string (option value)) → option string)
    (read_csv : string → CsvRead)
    (unmodelled_labels :
       Model → DataFrame value → gmap string (list (gmap string (option value))) →
       UploadResponse * gmap string (list (gmap string (option value))))
    (tables : dict Model) (table_name : string) (TableClass : Model)
    (contents : string) (df : DataFrame value)
    (store : gmap string (list (gmap string (option value))))
    (raw : string) (vs : list (option value)) (i : nat) (x : option value) :
  read_csv contents = CsvFrame df →
  dict_get table_name tables = Some TableClass →
  modelled_labels df →
  integrity_error store (tablename TableClass)
    (records_for float_repr datetime_repr to_datetime TableClass df) = None →
  (raw, vs) ∈ series df →
  normalise raw ∈ id_columns →
  normalise raw ∈ name <$> table_columns TableClass →
  (i < nrows df)%nat →
  vs !! i = Some x →
  ∃ msg r,
    upload_csv_with float_repr datetime_repr to_datetime integrity_error
      read_csv unmodelled_labels tables table_name contents store =
      (UploadMessage msg,
       <[tablename TableClass :=
           default [] (store !! tablename TableClass) ++
           records_for float_repr datetime_repr to_datetime TableClass df]> store) ∧
    records_for float_repr datetime_repr to_datetime TableClass df !! i = Some r ∧
    r !! normalise raw = Some (Some (VStr (py_str float_repr datetime_repr x))) ∧
    (∀ z, x = Some (VInt z) →
       r !! normalise raw = Some (Some (VStr (str_of_Z z)))) ∧
    (∀ q, x = Some (VFloat q) →
       r !! normalise raw = Some (Some (VStr (float_repr q)))).
Proof.
  intros Hread Ht Hlabels Hok Hin Hid Hmodel Hi Hx.
  pose proof Hlabels as [_ Hnd].
  destruct (lookup_lt_is_Some_2
              (records_for float_repr datetime_repr to_datetime TableClass df) i)
    as [r Hr].
  { rewrite records_for_length; [done..|]. exists raw. split; [|done].
    unfold columns. by apply (list_elem_of_fmap_2 fst _ (raw, vs)). }
  eexists _, r. split; [by apply upload_accepted|]. split; [done|].
  rewrite (stored_field_present _ _ _ _ _ _ _ _ _ Hnd Hr Hin Hmodel).
  destruct (stored_column_cell float_repr datetime_repr to_datetime
              (normalise raw) vs i x Hx) as (_ & Hcell & _).
  rewrite (Hcell Hid).
  split; [done|]. split; [by intros z ->|by intros q ->].
Qed.

Lemma identifier_stored_as_text_of_parsed_value_witness :
  ∃ msg r,
    upload_csv_with sample_float_repr sample_datetime_repr sample_to_datetime
      sample_integrity_error sample_read_csv sample_unmodelled_labels
      tables "customer" customer_csv ∅ =
      (UploadMessage msg,
       <[tablename Customer :=
           default [] ((∅ : gmap string (list (gmap string (option value))))
                         !! tablename Customer) ++
           records_for sample_float_repr sample_datetime_repr sample_to_datetime
             Customer customer_batch]> ∅) ∧
    records_for sample_float_repr sample_datetime_repr sample_to_datetime
      Customer customer_batch !! 0%nat = Some r ∧
    r !! normalise " Customer_ID"
      = Some (Some (VStr (py_str sample_float_repr sample_datetime_repr
                            (Some (VInt 7))))) ∧
    (∀ z, Some (VInt 7) = Some (VInt z) →
       r !! normalise " Customer_ID" = Some (Some (VStr (str_of_Z z)))) ∧
    (∀ q, Some (VInt 7) = Some (VFloat q) →
       r !! normalise " Customer_ID" = Some (Some (VStr (sample_float_repr q)))).
Proof.
  apply (identifier_stored_as_text_of_parsed_value sample_float_repr
           sample_datetime_repr sample_to_datetime sample_integrity_error
           sample_read_csv sample_unmodelled_labels tables "customer" Customer
           customer_csv customer_batch ∅ " Customer_ID" [Some (VInt 7)] 0
           (Some (VInt 7))).
  - vm_compute. reflexivity.
  - reflexivity.
  - apply (bool_decide_unpack _). by vm_compute.
  - reflexivity.
  - constructor.
  - apply (bool_decide_unpack _). by vm_compute.
  - apply (bool_decide_unpack _). by vm_compute.
  - simpl. lia.
  - reflexivity.
Defined.

(** C8 fails as stated: the customer file whose identifier is written 007
    is stored with the text "7", and the file whose identifier column also
    has a blank cell with the text "7.0"; neither with "007". *)
Lemma leading_zeros_not_stored :
  (∃ r,
     upload_csv sample_float_repr sample_datetime_repr sample_to_datetime
       sample_integrity_error sample_read_csv sample_unmodelled_labels
       "customer" customer_csv ∅ =
       (UploadMessage "CSV uploaded successfully to customer",
        {[ "customer"%string := [r] ]}) ∧
     r !! "customer_id"%string = Some (Some (VStr "7")) ∧
     r !! "customer_id"%string ≠ Some (Some (VStr "007"))) ∧
  (∃ r r',
     upload_csv sample_float_repr sample_datetime_repr sample_to_datetime
       sample_integrity_error sample_read_csv sample_unmodelled_labels
       "customer" blank_id_csv ∅ =
       (UploadMessage "CSV uploaded successfully to customer",
        {[ "customer"%string := [r; r'] ]}) ∧
     r !! "customer_id"%string = Some (Some (VStr "7.0")) ∧
     r !! "customer_id"%string ≠ Some (Some (VStr "007"))).
Proof.
  split.
  - eexists. split; [vm_compute; reflexivity|]. split; by vm_compute.
  - eexists _, _. split; [vm_compute; reflexivity|]. split; by vm_compute.
Qed.



(** The instance of C9 in full: with the schema {a, b}, the batch
    [{a: 1, b: 2, c: 3}] is stored as the one row {a: 1, b: 2}. *)
Lemma ab_batch_stored :
  upload_csv_with sample_float_repr sample_datetime_repr sample_to_datetime
    sample_integrity_error sample_read_csv sample_unmodelled_labels
    [("ab"%string, AB)] "ab" ab_csv ∅ =
    (UploadMessage "CSV uploaded successfully to ab",
     {[ "ab"%string :=
          [ ({[ "a"%string := Some (VInt 1); "b"%string := Some (VInt 2) ]}
               : gmap string (option value)) ] ]}).
Proof. vm_compute. reflexivity. Qed.

(** * Further properties of the code *)

(** ** [compute_metrics]: the whole record *)

Section MetricsRecord.
Context {V : Type} `{EqDecision V}.
Variable rnd : Q → Q.

Lemma dict_set_fresh {A} (k : string) (v : A) (d : dict A) :
  k ∉ dict_keys d → dict_set k v d = d ++ [(k, v)].
Proof.
  unfold dict_keys. induction d as [|[k' v'] d IH]; intros Hk; [done|].
  rewrite fmap_cons in Hk. apply not_elem_of_cons in Hk as [Hne Hk].
  simpl. rewrite decide_False by done. by rewrite IH.
Qed.

(** Over columns with distinct names that are not yet in the dict, the
    loop appends one entry per column, in order. *)
Lemma column_loop_entries (data : DataFrame V) (total_rows : Z)
    (s : list (string * list (option V))) (acc : dict ColumnMetrics) :
  total_rows ≠ 0 →
  NoDup (columns data) →
  (∀ cv, cv ∈ s → cv ∈ series data) →
  NoDup (dict_keys acc ++ s.*1) →
  column_loop rnd data total_rows s.*1 acc =
    Ok (acc ++ ((λ cv : string * list (option V),
                   (cv.1, column_entry rnd total_rows cv.2)) <$> s)).
Proof.
  intros Hrows Hnd. revert acc.
  induction s as [|[c vs] s IH]; intros acc Hsub Hfresh.
  - simpl. by rewrite app_nil_r.
  - rewrite fmap_cons. cbn [fst]. simpl column_loop.
    unfold getitem. rewrite (lookup_series_elem c vs).
    2:{ exact Hnd. }
    2:{ apply Hsub, elem_of_cons. by left. }
    simpl. rewrite !truediv_nonzero by done. simpl.
    rewrite fmap_cons in Hfresh. apply NoDup_app in Hfresh as (Hacc & Hdisj & Hs).
    apply NoDup_cons in Hs as [Hc Hs].
    rewrite dict_set_fresh.
    2:{ intros Hin. apply (Hdisj _ Hin), elem_of_cons. by left. }
    rewrite IH.
    + by rewrite <- app_assoc.
    + intros cv Hcv. apply Hsub, elem_of_cons. by right.
    + unfold dict_keys. rewrite fmap_app. simpl. rewrite <- app_assoc. simpl.
      apply NoDup_app. split; [done|]. split; [|by apply NoDup_cons].
      intros k Hk. by apply Hdisj.
Qed.

(** The [columns] member of the metrics of a non-empty table: one entry
    per column of the frame, in the order of the frame. *)
Lemma metric_columns_eq (data : DataFrame V) (name : string) (m : Metrics) :
  table_frame data → nrows data ≠ 0%nat →
  compute_metrics rnd data name = Ok m →
  metric_columns m =
    (λ cv : string * list (option V), (cv.1, column_entry rnd (len data) cv.2))
    <$> series data.
Proof.
  intros (Hnd & Hcols & _) Hrows.
  assert (len data ≠ 0) as Hlen by (unfold len; lia).
  assert (len data * Z.of_nat (length (columns data)) ≠ 0) as Hcells.
  { unfold columns. rewrite length_fmap.
    destruct (series data); [done|]. simpl length. lia. }
  pose proof (column_loop_entries data (len data) (series data) [] Hlen Hnd)
    as Hloop.
  change ((series data).*1) with (columns data) in Hloop.
  unfold compute_metrics. rewrite decide_False by done.
  rewrite !truediv_nonzero by done. cbn [mbind result_bind metric_columns].
  rewrite Hloop; [|done|done].
  cbn [mbind result_bind app]. by intros [= <-].
Qed.
End MetricsRecord.

Section DuplicateRows.
Context {A : Type} `{EqDecision A}.

Lemma remove_dups_length_equiv (l1 l2 : list A) :
  (∀ x, x ∈ l1 ↔ x ∈ l2) →
  length (remove_dups l1) = length (remove_dups l2).
Proof.
  intros Heq. apply Permutation_length, NoDup_Permutation;
    [apply NoDup_remove_dups | apply NoDup_remove_dups|].
  intros x. by rewrite !elem_of_remove_dups.
Qed.

Lemma remove_dups_length_le (l : list A) :
  (length (remove_dups l) ≤ length l)%nat.
Proof.
  induction l as [|x l IH]; [done|]. cbn [remove_dups].
  destruct (decide_rel elem_of x l); simpl; lia.
Qed.

Lemma remove_dups_NoDup_id (l : list A) : NoDup l → remove_dups l = l.
Proof.
  induction 1 as [|x l Hx _ IH]; [done|]. cbn [remove_dups].
  destruct (decide_rel elem_of x l); [done|]. by rewrite IH.
Qed.

Lemma remove_dups_length_NoDup (l : list A) :
  length (remove_dups l) = length l → NoDup l.
Proof.
  induction l as [|x l IH]; [constructor|]. cbn [remove_dups].
  pose proof (remove_dups_length_le l) as Hle.
  destruct (decide_rel elem_of x l) as [Hin|Hout]; simpl; intros Hlen; [lia|].
  apply NoDup_cons. split; [done|]. apply IH. lia.
Qed.

Lemma sum_bool_cons (b : bool) (bs : list bool) :
  sum_bool (b :: bs) = (if b then 1 else 0) + sum_bool bs.
Proof.
  unfold sum_bool. destruct b.
  - rewrite filter_cons_True by done. rewrite length_cons. lia.
  - rewrite filter_cons_False by done. lia.
Qed.
End DuplicateRows.

Section DuplicatedFacts.
Context {V : Type} `{EqDecision V}.

(** The rows marked by [duplicated] and the distinct rows add up to the
    rows, whatever has been seen before. *)
Lemma duplicated_from_count (seen rs : list (list (option V))) :
  sum_bool (duplicated_from seen rs) + Z.of_nat (length (remove_dups (rs ++ seen)))
  = Z.of_nat (length rs) + Z.of_nat (length (remove_dups seen)).
Proof.
  revert seen. induction rs as [|r rs IH]; intros seen.
  { cbn [duplicated_from app length]. unfold sum_bool. rewrite filter_nil.
    simpl. lia. }
  cbn [duplicated_from]. rewrite sum_bool_cons.
  specialize (IH (r :: seen)).
  assert (length (remove_dups ((r :: rs) ++ seen))
          = length (remove_dups (rs ++ r :: seen))) as ->.
  { apply remove_dups_length_equiv. intros x.
    rewrite <- app_comm_cons, elem_of_cons, !elem_of_app, elem_of_cons. tauto. }
  rewrite length_cons.
  assert (Z.of_nat (length (remove_dups (r :: seen)))
          = (if bool_decide (r ∈ seen) then 0 else 1)
            + Z.of_nat (length (remove_dups seen))) as Hcard.
  { cbn [remove_dups]. destruct (decide_rel elem_of r seen) as [Hin|Hout].
    - by rewrite bool_decide_eq_true_2.
    - rewrite bool_decide_eq_false_2 by done. rewrite length_cons. lia. }
  destruct (bool_decide (r ∈ seen)); lia.
Qed.

Lemma rows_length (data : DataFrame V) : length (rows data) = nrows data.
Proof. unfold rows. by rewrite length_fmap, length_seq. Qed.
End DuplicatedFacts.

(** X1. For a non-empty table, [missing_values] is the sum of the
    [missing_values] of the per-column entries, and it lies between 0 and
    the number of cells (rows times columns). *)
Theorem missing_values_sum_of_columns {V : Type} `{EqDecision V} (rnd : Q → Q)
    (data : DataFrame V) (name : string) :
  table_frame data → nrows data ≠ 0%nat →
  ∃ m, compute_metrics rnd data name = Ok m ∧
    missing_values m =
      sum_Z ((λ e : string * ColumnMetrics, col_missing_values e.2)
             <$> metric_columns m) ∧
    0 ≤ missing_values m ≤ total_rows m * Z.of_nat (length (columns data)).
Proof.
  intros Hframe Hrows. pose proof Hframe as (Hnd & Hcols & Hlen).
  destruct (compute_metrics_nonempty rnd data name Hrows Hcols)
    as (m & Hm & _ & _ & Htotal & Hmissing & _).
  exists m. split; [done|].
  rewrite (metric_columns_eq rnd data name m Hframe Hrows Hm), Hmissing, Htotal.
  split.
  - f_equal. rewrite <- list_fmap_compose. by apply list_fmap_ext.
  - unfold len, columns. rewrite length_fmap. by apply missing_values_bounds.
Qed.

Lemma missing_values_sum_of_columns_witness :
  ∃ m, compute_metrics round64 sample_frame "t" = Ok m ∧
    missing_values m =
      sum_Z ((λ e : string * ColumnMetrics, col_missing_values e.2)
             <$> metric_columns m) ∧
    0 ≤ missing_values m ≤ total_rows m * Z.of_nat (length (columns sample_frame)).
Proof.
  apply (missing_values_sum_of_columns round64 sample_frame "t").
  - exact sample_frame_table.
  - simpl. lia.
Defined.

(** X2. For a non-empty table, [duplicate_rows] is the number of rows
    minus the number of distinct rows (two nulls compare equal): it is at
    least 0 and less than the number of rows, and it is 0 exactly when all
    rows are distinct. *)
Theorem duplicate_rows_counts_repeats {V : Type} `{EqDecision V} (rnd : Q → Q)
    (data : DataFrame V) (name : string) :
  table_frame data → nrows data ≠ 0%nat →
  ∃ m, compute_metrics rnd data name = Ok m ∧
    (∀ l, NoDup l → (∀ r, r ∈ l ↔ r ∈ rows data) →
       duplicate_rows m = total_rows m - Z.of_nat (length l)) ∧
    0 ≤ duplicate_rows m < total_rows m ∧
    (duplicate_rows m = 0 ↔ NoDup (rows data)).
Proof.
  intros (_ & Hcols & _) Hrows.
  destruct (compute_metrics_nonempty rnd data name Hrows Hcols)
    as (m & Hm & _ & _ & Htotal & _ & Hdup & _).
  exists m. split; [done|]. rewrite Hdup, Htotal. unfold duplicated, len.
  pose proof (duplicated_from_count [] (rows data)) as Hcount.
  rewrite app_nil_r, rows_length in Hcount. simpl in Hcount.
  assert (0 < length (remove_dups (rows data)) ≤ nrows data)%nat as Hdistinct.
  { split.
    - destruct (rows data) as [|r rs] eqn:Hr.
      + pose proof (rows_length data) as Hl. rewrite Hr in Hl. simpl in Hl. lia.
      + assert (r ∈ remove_dups (r :: rs)) as Hin
          by (apply elem_of_remove_dups, elem_of_cons; by left).
        destruct (remove_dups (r :: rs)); [by apply elem_of_nil in Hin|].
        simpl. lia.
    - rewrite <- (rows_length data). apply remove_dups_length_le. }
  split; [|split; [lia|]].
  - intros l Hnd Hl.
    assert (length l = length (remove_dups (rows data))) as ->; [|lia].
    apply Permutation_length, NoDup_Permutation;
      [done | apply NoDup_remove_dups|].
    intros r. by rewrite Hl, elem_of_remove_dups.
  - split.
    + intros Hzero.
      apply remove_dups_length_NoDup. rewrite rows_length. lia.
    + intros Hnd. rewrite (remove_dups_NoDup_id (rows data)) in Hcount by done.
      rewrite rows_length in Hcount. lia.
Qed.

Lemma duplicate_rows_counts_repeats_witness :
  ∃ m, compute_metrics round64 sample_frame "t" = Ok m ∧
    (∀ l, NoDup l → (∀ r, r ∈ l ↔ r ∈ rows sample_frame) →
       duplicate_rows m = total_rows m - Z.of_nat (length l)) ∧
    0 ≤ duplicate_rows m < total_rows m ∧
    (duplicate_rows m = 0 ↔ NoDup (rows sample_frame)).
Proof.
  apply (duplicate_rows_counts_repeats round64 sample_frame "t").
  - exact sample_frame_table.
  - simpl. lia.
Defined.

Lemma isnull_sum_counts_nulls {V : Type} (s : list (option V)) :
  isnull_sum s = Z.of_nat (length (filter (λ x, x = None) s)).
Proof.
  unfold isnull_sum, sum_bool. f_equal.
  induction s as [|x s IH]; [done|]. rewrite fmap_cons.
  destruct x as [v|]; cbn [isnull].
  - rewrite (filter_cons_False (λ b, b = true)) by done.
    rewrite (filter_cons_False (λ x : option V, x = None)) by done. apply IH.
  - rewrite (filter_cons_True (λ b, b = true)) by done.
    rewrite (filter_cons_True (λ x : option V, x = None)) by done.
    rewrite !length_cons. by f_equal.
Qed.

(** X3. The [columns] member of the metrics of a non-empty table has
    exactly one entry per column of the table, in the order of the table's
    columns, and the [missing_values] of each entry is the number of nulls
    of that column, between 0 and the number of rows. *)
Theorem metric_columns_follow_frame {V : Type} `{EqDecision V} (rnd : Q → Q)
    (data : DataFrame V) (name : string) :
  table_frame data → nrows data ≠ 0%nat →
  ∃ m, compute_metrics rnd data name = Ok m ∧
    dict_keys (metric_columns m) = columns data ∧
    (∀ c s, (c, s) ∈ series data →
       ∃ cm, dict_get c (metric_columns m) = Some cm ∧
         col_missing_values cm = Z.of_nat (length (filter (λ x, x = None) s)) ∧
         0 ≤ col_missing_values cm ≤ total_rows m).
Proof.
  intros Hframe Hrows. pose proof Hframe as (Hnd & Hcols & Hlen).
  destruct (compute_metrics_nonempty rnd data name Hrows Hcols)
    as (m & Hm & _ & _ & Htotal & _ & _ & _ & _ & _ & Hin & _).
  exists m. split; [done|]. split.
  - rewrite (metric_columns_eq rnd data name m Hframe Hrows Hm).
    unfold dict_keys, columns. rewrite <- list_fmap_compose.
    by apply list_fmap_ext.
  - intros c s Hcs. destruct (Hin c) as (s' & Hs' & Hget).
    { by apply (list_elem_of_fmap_2 fst) in Hcs. }
    unfold getitem in Hs'. rewrite (lookup_series_elem c s) in Hs' by done.
    injection Hs' as <-. eexists. split; [exact Hget|]. simpl.
    split.
    + apply isnull_sum_counts_nulls.
    + rewrite Htotal. unfold len. pose proof (isnull_sum_bounds s) as Hb.
      rewrite Forall_forall in Hlen. specialize (Hlen _ Hcs). simpl in Hlen.
      by rewrite Hlen in Hb.
Qed.

Lemma metric_columns_follow_frame_witness :
  ∃ m, compute_metrics round64 sample_frame "t" = Ok m ∧
    dict_keys (metric_columns m) = columns sample_frame ∧
    (∀ c s, (c, s) ∈ series sample_frame →
       ∃ cm, dict_get c (metric_columns m) = Some cm ∧
         col_missing_values cm = Z.of_nat (length (filter (λ x, x = None) s)) ∧
         0 ≤ col_missing_values cm ≤ total_rows m).
Proof.
  apply (metric_columns_follow_frame round64 sample_frame "t").
  - exact sample_frame_table.
  - simpl. lia.
Defined.

(** X4. In the entry of every column of a non-empty table, the
    completeness and null percentages add up to 100 within floating-point
    tolerance: within [400 * u] when every float operation has a relative
    error of at most [u]. *)
Theorem column_percentages_complementary {V : Type} `{EqDecision V}
    (rnd : Q → Q) (u : Q) (data : DataFrame V) (name : string) :
  (0 <= u ∧ u <= 1 # 2)%Q →
  (∀ x, Qabs (rnd x - x) <= u * Qabs x)%Q →
  table_frame data → nrows data ≠ 0%nat →
  ∃ m, compute_metrics rnd data name = Ok m ∧
    ∀ c cm, dict_get c (metric_columns m) = Some cm →
      (Qabs (col_completeness_percentage cm + col_null_values_percentage cm - 100)
         <= 400 * u)%Q.
Proof.
  intros Hu Hrnd (Hnd & Hcols & Hlen) Hrows.
  destruct (compute_metrics_nonempty rnd data name Hrows Hcols)
    as (m & Hm & _ & _ & _ & _ & _ & _ & _ & _ & Hin & Hout).
  exists m. split; [done|]. intros c cm Hcm.
  destruct (decide (c ∈ columns data)) as [Hc|Hc].
  2:{ rewrite (Hout c Hc) in Hcm. done. }
  destruct (Hin c Hc) as (s & Hs & Hget). rewrite Hget in Hcm.
  injection Hcm as <-. simpl. unfold fdiv.
  apply (complement_within_tolerance rnd u Hu Hrnd).
  destruct (lookup_series_name c (series data) Hc) as (s' & Hs' & Hel).
  unfold getitem in Hs. rewrite Hs' in Hs. injection Hs as ->.
  rewrite Forall_forall in Hlen. specialize (Hlen _ Hel). simpl in Hlen.
  pose proof (isnull_sum_bounds s) as Hb. rewrite Hlen in Hb.
  unfold len. apply ratio_in_unit_interval; lia.
Qed.

Lemma column_percentages_complementary_witness :
  ∃ m, compute_metrics round64 sample_frame "t" = Ok m ∧
    ∀ c cm, dict_get c (metric_columns m) = Some cm →
      (Qabs (col_completeness_percentage cm + col_null_values_percentage cm - 100)
         <= 400 * (1 # 9007199254740992))%Q.
Proof.
  apply (column_percentages_complementary round64 (1 # 9007199254740992)
           sample_frame "t").
  - split; [done | by vm_compute].
  - exact round64_relative.
  - exact sample_frame_table.
  - simpl. lia.
Defined.

Lemma round64_zero_ratio (y : Q) : round64 (inject_Z 0 / y) = 0%Q.
Proof. destruct y as [[|n|n] d]; reflexivity. Qed.

Lemma sum_Z_zero (zs : list Z) : Forall (λ z, z = 0) zs → sum_Z zs = 0.
Proof. induction 1 as [|z zs -> _ IH]; [done|]. simpl. by rewrite IH. Qed.

(** X5. With the rounding of binary64, a non-empty table without a null
    cell has [missing_values = 0], a null percentage of exactly 0 and a
    completeness of exactly 100, for the table and for every column. *)
Theorem complete_table_scores_100 {V : Type} `{EqDecision V}
    (data : DataFrame V) (name : string) :
  table_frame data → nrows data ≠ 0%nat →
  (∀ c s, (c, s) ∈ series data → None ∉ s) →
  ∃ m, compute_metrics round64 data name = Ok m ∧
    missing_values m = 0 ∧
    (null_values_percentage m == 0)%Q ∧
    (completeness_percentage m == 100)%Q ∧
    ∀ c cm, dict_get c (metric_columns m) = Some cm →
      col_missing_values cm = 0 ∧
      (col_null_values_percentage cm == 0)%Q ∧
      (col_completeness_percentage cm == 100)%Q.
Proof.
  intros (Hnd & Hcols & Hlen) Hrows Hfull.
  assert (∀ c s, (c, s) ∈ series data → isnull_sum s = 0) as Hzero.
  { intros c s Hcs. rewrite isnull_sum_counts_nulls.
    specialize (Hfull c s Hcs).
    assert (filter (λ x : option V, x = None) s = []) as ->; [|done].
    clear Hcs. induction s as [|x s IH]; [done|].
    apply not_elem_of_cons in Hfull as [Hx Hs].
    rewrite filter_cons_False by done. by apply IH. }
  destruct (compute_metrics_nonempty round64 data name Hrows Hcols)
    as (m & Hm & _ & _ & _ & Hmissing & _ & Hnull & Hcompl & _ & Hin & Hout).
  assert (sum_Z ((λ cv : string * list (option V), isnull_sum cv.2) <$> series data) = 0)
    as Hsum.
  { apply sum_Z_zero, Forall_fmap, Forall_forall. intros [c s] Hcs. simpl.
    by eapply Hzero. }
  exists m. split; [done|]. rewrite Hmissing, Hnull, Hcompl, Hsum.
  unfold fmul, fsub, fdiv. rewrite round64_zero_ratio.
  split; [done|]. split; [by vm_compute|]. split; [by vm_compute|].
  intros c cm Hcm.
  destruct (decide (c ∈ columns data)) as [Hc|Hc].
  2:{ rewrite (Hout c Hc) in Hcm. done. }
  destruct (Hin c Hc) as (s & Hs & Hget). rewrite Hget in Hcm.
  injection Hcm as <-.
  destruct (lookup_series_name c (series data) Hc) as (s' & Hs' & Hel).
  unfold getitem in Hs. rewrite Hs' in Hs. injection Hs as ->.
  simpl. rewrite (Hzero c s Hel). unfold fmul, fsub, fdiv.
  rewrite round64_zero_ratio. split; [done|]. split; by vm_compute.
Qed.

Lemma full_frame_table : table_frame full_frame.
Proof.
  split; [|split; [done|]].
  - apply (bool_decide_unpack _). by vm_compute.
  - by repeat constructor.
Qed.

Lemma complete_table_scores_100_witness :
  ∃ m, compute_metrics round64 full_frame "t" = Ok m ∧
    missing_values m = 0 ∧
    (null_values_percentage m == 0)%Q ∧
    (completeness_percentage m == 100)%Q ∧
    ∀ c cm, dict_get c (metric_columns m) = Some cm →
      col_missing_values cm = 0 ∧
      (col_null_values_percentage cm == 0)%Q ∧
      (col_completeness_percentage cm == 100)%Q.
Proof.
  apply (complete_table_scores_100 full_frame "t").
  - exact full_frame_table.
  - simpl. lia.
  - intros c s Hcs. unfold full_frame in Hcs. simpl in Hcs.
    apply elem_of_cons in Hcs as [[= -> ->]|Hcs].
    { intros Hin. repeat (apply elem_of_cons in Hin as [?|Hin]; [done|]).
      by apply elem_of_nil in Hin. }
    apply elem_of_cons in Hcs as [[= -> ->]|Hcs].
    { intros Hin. repeat (apply elem_of_cons in Hin as [?|Hin]; [done|]).
      by apply elem_of_nil in Hin. }
    by apply elem_of_nil in Hcs.
Defined.

(** ** [get_data_quality]: calls, composition, failure *)

(** X6. A returning run of [get_data_quality] sends exactly one request
    to the summarisation service for each requested name that is in the
    catalog, counted with repetitions: nothing is cached, a table requested
    twice is analysed and summarised twice. *)
Theorem one_request_per_known_name {V : Type} `{EqDecision V}
    (rnd : Q → Q) (client : list string → string → result string)
    (db : gmap string (DataFrame V))
    (read_sql_query : string → result (DataFrame V)) (names : list string)
    (sent sent' : list string) (results : list Item) :
  get_data_quality rnd client db read_sql_query (Some names) sent
    = (Ok results, sent') →
  length sent' = (length sent + length (filter (λ t, t ∈ dom db) names))%nat ∧
  length (filter (λ it, item_llm_analysis it ≠ None) results)
    = length (filter (λ t, t ∈ dom db) names).
Proof.
  unfold get_data_quality. intros Hrun.
  apply analysis_loop_inv in Hrun as (items & -> & Hitems & ->). simpl.
  split.
  - rewrite length_app. f_equal. by eapply prompts_sent_length.
  - clear sent. induction Hitems as [|t it names items Hit _ IH]; [done|].
    destruct Hit as [[Hnone ->]|(data & m & a & s & Hin & _ & _ & _ & ->)].
    + rewrite filter_cons_False by (simpl; by intros ?).
      by rewrite (filter_cons_False (λ t, t ∈ dom db)).
    + rewrite filter_cons_True by done.
      rewrite (filter_cons_True (λ t, t ∈ dom db)) by done.
      simpl. by f_equal.
Qed.

Lemma one_request_per_known_name_witness :
  ∃ (results : list Item) (sent' : list string),
    length sent' = (length ([] : list string) + length
       (filter (λ t, t ∈ dom sample_db) ["orders"; "ghost"; "orders"]%string))%nat ∧
    length (filter (λ it, item_llm_analysis it ≠ None) results)
      = length (filter (λ t, t ∈ dom sample_db) ["orders"; "ghost"; "orders"]%string).
Proof.
  eexists _, _.
  apply (one_request_per_known_name round64 sample_client sample_db
           sample_read_sql_query ["orders"; "ghost"; "orders"]%string []).
  vm_compute. reflexivity.
Defined.

(** X7. A batch over the concatenation of two lists of names behaves as
    the batch over the first list followed by the batch over the second,
    started with the requests the first has sent: the results are
    concatenated, and an exception of the first part stops the run before
    the second part is looked at. *)
Theorem get_data_quality_app {V : Type} `{EqDecision V}
    (rnd : Q → Q) (client : list string → string → result string)
    (db : gmap string (DataFrame V))
    (read_sql_query : string → result (DataFrame V)) (names1 names2 : list string)
    (sent : list string) :
  get_data_quality rnd client db read_sql_query (Some (names1 ++ names2)) sent =
    match get_data_quality rnd client db read_sql_query (Some names1) sent with
    | (Ok results1, sent1) =>
        match get_data_quality rnd client db read_sql_query (Some names2) sent1 with
        | (Ok results2, sent2) => (Ok (results1 ++ results2), sent2)
        | (Raise e, sent2) => (Raise e, sent2)
        end
    | (Raise e, sent1) => (Raise e, sent1)
    end.
Proof.
  unfold get_data_quality. rewrite analysis_loop_app.
  destruct (analysis_loop rnd client read_sql_query (dom db) names1 [] sent)
    as [[r1|e] s1]; [|done].
  apply analysis_loop_results.
Qed.

(** X8. A batch that raises returns no partial result.  It stopped at a
    requested table [t] of the catalog, after the names before it were
    answered (the batch over those names alone returns).  The exception is
    the one raised by reading [t], by computing its metrics, or by the
    summarisation request for [t]; the requests sent are those of the
    analysed tables before [t], in order, followed in the last case by the
    failed request for [t]. *)
Theorem failed_batch_stops_at_known_table {V : Type} `{EqDecision V}
    (rnd : Q → Q) (client : list string → string → result string)
    (db : gmap string (DataFrame V))
    (read_sql_query : string → result (DataFrame V)) (names : list string)
    (sent sent' : list string) (e : exn) :
  get_data_quality rnd client db read_sql_query (Some names) sent
    = (Raise e, sent') →
  ∃ names1 t names2 items,
    names = names1 ++ t :: names2 ∧
    get_data_quality rnd client db read_sql_query (Some names1) sent
      = (Ok items, sent ++ prompts_sent items) ∧
    t ∈ dom db ∧
    ((get_data_from_table read_sql_query t = Raise e ∧
      sent' = sent ++ prompts_sent items) ∨
     (∃ data, get_data_from_table read_sql_query t = Ok data ∧
        compute_metrics rnd data t = Raise e ∧
        sent' = sent ++ prompts_sent items) ∨
     (∃ data m, get_data_from_table read_sql_query t = Ok data ∧
        compute_metrics rnd data t = Ok m ∧
        client (sent ++ prompts_sent items) (generate_llm_prompt m) = Raise e ∧
        sent' = sent ++ prompts_sent items ++ [generate_llm_prompt m])).
Proof.
  unfold get_data_quality. intros Hrun.
  apply analysis_loop_failure in Hrun
    as (names1 & t & names2 & items & -> & Hrun1 & Ht & Hcase).
  by exists names1, t, names2, items.
Qed.

Lemma failed_batch_stops_at_known_table_witness :
  ∃ (sent' : list string) names1 t names2 items,
    ["ghost"; "customer"; "orders"]%string = names1 ++ t :: names2 ∧
    get_data_quality round64 failing_client sample_db sample_read_sql_query
      (Some names1) [] = (Ok items, [] ++ prompts_sent items) ∧
    t ∈ dom sample_db ∧
    ((get_data_from_table sample_read_sql_query t
        = Raise (APIError "Connection error.") ∧
      sent' = [] ++ prompts_sent items) ∨
     (∃ data, get_data_from_table sample_read_sql_query t = Ok data ∧
        compute_metrics round64 data t = Raise (APIError "Connection error.") ∧
        sent' = [] ++ prompts_sent items) ∨
     (∃ data m, get_data_from_table sample_read_sql_query t = Ok data ∧
        compute_metrics round64 data t = Ok m ∧
        failing_client ([] ++ prompts_sent items) (generate_llm_prompt m)
          = Raise (APIError "Connection error.") ∧
        sent' = [] ++ prompts_sent items ++ [generate_llm_prompt m])).
Proof.
  eexists.
  apply (failed_batch_stops_at_known_table round64 failing_client sample_db
           sample_read_sql_query ["ghost"; "customer"; "orders"]%string [] _
           (APIError "Connection error.")).
  vm_compute. reflexivity.
Defined.

(** X19. Whatever list [get_data_quality] returns has one item per
    requested name, in the order of the request, with the requested name
    as its [table_name]: the soft error [{table_name, error: "Table not
    found", llm_analysis: None}] for a name that is not in the catalog, and
    for a name of the catalog the metrics [compute_metrics] gives for the
    rows read, with the summary.  The run does return when the rows of
    every requested table of the catalog are read, as a frame [SELECT *]
    can give, and the summarisation service answers. *)
Theorem returned_items_follow_request {V : Type} `{EqDecision V}
    (rnd : Q → Q) (client : list string → string → result string)
    (db : gmap string (DataFrame V))
    (read_sql_query : string → result (DataFrame V)) (names : list string)
    (sent : list string) :
  (∀ results sent',
     get_data_quality rnd client db read_sql_query (Some names) sent
       = (Ok results, sent') →
     item_table_name <$> results = names ∧
     Forall2 (λ t it,
       (t ∉ dom db →
          it = TableNotFound t ∧
          item_error it = Some "Table not found"%string ∧
          item_llm_analysis it = None) ∧
       (t ∈ dom db →
          ∃ data m a,
            get_data_from_table read_sql_query t = Ok data ∧
            compute_metrics rnd data t = Ok m ∧ it = Analysed m a))
       names results) ∧
  ((∀ t, t ∈ names → t ∈ dom db →
      ∃ data, get_data_from_table read_sql_query t = Ok data ∧ table_frame data) →
   (∀ s p, ∃ a, client s p = Ok a) →
   ∃ results sent',
     get_data_quality rnd client db read_sql_query (Some names) sent
       = (Ok results, sent')).
Proof.
  unfold get_data_quality. split.
  - intros results sent' Hrun.
    apply analysis_loop_inv in Hrun as (items & -> & Hitems & _). simpl. split.
    + clear sent'. induction Hitems as [|t it names items Hit _ IH]; [done|].
      rewrite fmap_cons. f_equal; [|done]. by eapply item_for_table_name.
    + eapply Forall2_impl; [exact Hitems|].
      intros t it [[Hout ->]|(data & m & a & s & Hin & Hdata & Hm & _ & ->)]; split.
      * done.
      * intros Hin. by destruct Hout.
      * intros Hout. by destruct Hout.
      * intros _. by exists data, m, a.
  - intros Hread Hclient. by apply analysis_loop_returns.
Qed.

Lemma returned_items_follow_request_witness :
  ∃ results sent',
    get_data_quality round64 sample_client sample_db sample_read_sql_query
      (Some ["orders"; "ghost"; "customer"; "orders"]%string) []
      = (Ok results, sent').
Proof.
  apply (returned_items_follow_request round64 sample_client sample_db
           sample_read_sql_query ["orders"; "ghost"; "customer"; "orders"]%string []).
  - intros t _. apply sample_db_reads.
  - exact sample_client_answers.
Defined.

(** ** The [/data-quality/] route *)

Lemma split_nonempty (sep : ascii) (s : string) : split sep s ≠ [].
Proof.
  destruct s as [|c s]; [done|]. simpl.
  destruct (decide (c = sep)); [done|]. by destruct (split sep s).
Qed.

Lemma join_cons (sep p : string) (ps : list string) :
  ps ≠ [] → join sep (p :: ps) = p +:+ sep +:+ join sep ps.
Proof. by destruct ps. Qed.

(** [sep.join(s.split(sep)) == s] *)
Lemma join_split (sep : ascii) (s : string) :
  join (String sep EmptyString) (split sep s) = s.
Proof.
  induction s as [|c s IH]; [done|]. cbn [split].
  pose proof (split_nonempty sep s) as Hne.
  destruct (decide (c = sep)) as [->|Hc].
  - rewrite join_cons by done. simpl. by rewrite IH.
  - destruct (split sep s) as [|w ws] eqn:Hs; [done|].
    destruct ws as [|w' ws].
    + simpl in *. by rewrite IH.
    + rewrite join_cons by done. rewrite join_cons in IH by done.
      simpl. by rewrite <- IH.
Qed.

Lemma split_length (sep : ascii) (s : string) :
  length (split sep s)
  = S (length (filter (λ c, c = sep) (list_ascii_of_string s))).
Proof.
  induction s as [|c s IH]; [done|]. cbn [split list_ascii_of_string].
  destruct (decide (c = sep)) as [->|Hc].
  - rewrite filter_cons_True by done. simpl. by rewrite IH.
  - rewrite filter_cons_False by done.
    destruct (split sep s) as [|w ws]; [done|]. by rewrite <- IH.
Qed.

(** X9. For a non-empty [table_names] string, whatever
    [POST /data-quality/] returns has one item for each comma-separated
    piece of the string, empty and blank pieces included (one more item
    than the string has commas), and joining the [table_name]s of the items
    with commas gives back the string: the names are used as they are
    written, without trimming. *)
Theorem data_quality_names_round_trip {V : Type} `{EqDecision V}
    (rnd : Q → Q) (client : list string → string → result string)
    (db : gmap string (DataFrame V))
    (read_sql_query : string → result (DataFrame V)) (table_names : string)
    (sent sent' : list string) (results : list Item) :
  table_names ≠ EmptyString →
  data_quality rnd client db read_sql_query (Some table_names) sent
    = (Ok results, sent') →
  join "," (item_table_name <$> results) = table_names ∧
  length results
    = S (length (filter (λ c, c = ","%char) (list_ascii_of_string table_names))).
Proof.
  intros Hne. unfold data_quality. rewrite decide_False by done.
  unfold get_data_quality. intros Hrun.
  apply analysis_loop_inv in Hrun as (items & -> & Hitems & _). simpl.
  assert (item_table_name <$> items = split "," table_names) as Hnames.
  { clear Hne. induction Hitems as [|t it names items Hit _ IH]; [done|].
    rewrite fmap_cons. f_equal; [|done]. by eapply item_for_table_name. }
  split.
  - rewrite Hnames. apply join_split.
  - rewrite <- (length_fmap item_table_name), Hnames. apply split_length.
Qed.

Lemma data_quality_names_round_trip_witness :
  ∃ results : list Item,
    join "," (item_table_name <$> results) = "orders, ghost,"%string ∧
    length results
      = S (length (filter (λ c, c = ","%char)
                     (list_ascii_of_string "orders, ghost,"))).
Proof.
  eexists.
  eapply (data_quality_names_round_trip round64 sample_client sample_db
            sample_read_sql_query "orders, ghost," []).
  - done.
  - vm_compute. reflexivity.
Defined.

(** ** The catalog routes *)

(** Over distinct keys that are not yet in the dict, a loop of
    [d[k] = f(k)] appends one entry per key, in order. *)
Lemma foldl_dict_set_fresh {A} (f : string → A) (l : list string) (acc : dict A) :
  NoDup (dict_keys acc ++ l) →
  foldl (λ d t, dict_set t (f t) d) acc l = acc ++ ((λ t, (t, f t)) <$> l).
Proof.
  revert acc. induction l as [|t l IH]; intros acc Hnd.
  - simpl. by rewrite app_nil_r.
  - apply NoDup_app in Hnd as (Hacc & Hdisj & Hl).
    apply NoDup_cons in Hl as [Ht Hl]. simpl foldl.
    rewrite dict_set_fresh.
    2:{ intros Hin. apply (Hdisj _ Hin), elem_of_cons. by left. }
    rewrite IH.
    + rewrite <- app_assoc. done.
    + unfold dict_keys. rewrite fmap_app. simpl. rewrite <- app_assoc. simpl.
      apply NoDup_app. split; [done|]. split; [|by apply NoDup_cons].
      intros k Hk. by apply Hdisj.
Qed.

(** X10. When the table names of the catalog are distinct, the report of
    [get_keys_relations] has exactly one entry per table, in the order of
    the catalog, holding that table's primary-key columns and one relation
    per foreign key, in order, with the constrained columns, the referred
    table and the referred columns as the catalog gives them. *)
Theorem key_relations_one_entry_per_table (inspector : Inspector) :
  NoDup (get_table_names inspector) →
  get_keys_relations inspector =
    JObject [("key_relationships",
      JObject ((λ t,
        (t, JObject
              [("primary_keys", JArray (JString <$> get_pk_constraint inspector t));
               ("foreign_keys",
                JArray ((λ fk,
                  JObject [("column", JArray (JString <$> constrained_columns fk));
                           ("references_table", JString (referred_table fk));
                           ("references_column", JArray (JString <$> referred_columns fk))])
                  <$> get_foreign_keys inspector t))]))
       <$> get_table_names inspector))]%string.
Proof.
  intros Hnd. unfold get_keys_relations, key_relations.
  by rewrite (foldl_dict_set_fresh (table_keys inspector)).
Qed.

Lemma key_relations_one_entry_per_table_witness :
  get_keys_relations sample_inspector =
    JObject [("key_relationships",
      JObject ((λ t,
        (t, JObject
              [("primary_keys", JArray (JString <$> get_pk_constraint sample_inspector t));
               ("foreign_keys",
                JArray ((λ fk,
                  JObject [("column", JArray (JString <$> constrained_columns fk));
                           ("references_table", JString (referred_table fk));
                           ("references_column", JArray (JString <$> referred_columns fk))])
                  <$> get_foreign_keys sample_inspector t))]))
       <$> get_table_names sample_inspector))]%string.
Proof.
  apply (key_relations_one_entry_per_table sample_inspector).
  apply (bool_decide_unpack _). by vm_compute.
Defined.

(** X11. [GET /get_table_columns/{table_name}] and the complete
    [get_tables_with_columns] agree: for a table of the catalog the first
    answers with the table's name and the column list that the second has
    under that name; for any other name, compared exactly as written, the
    first answers [{error: "Table '<name>' does not exist"}] and the second
    has no member of that name. *)
Theorem table_columns_agree (inspector : Inspector)
    (get_columns : string → list ReflectedColumn) (table_name : string) :
  (table_name ∈ get_table_names inspector →
     get_table_columns inspector get_columns table_name =
       JObject [("table", JString table_name);
                ("columns", JArray (JString <$> (rc_name <$> get_columns table_name)))]%string ∧
     json_member "tables_with_columns" (get_tables_with_columns inspector get_columns)
       ≫= json_member table_name
     = json_member "columns" (get_table_columns inspector get_columns table_name)) ∧
  (table_name ∉ get_table_names inspector →
     get_table_columns inspector get_columns table_name =
       JObject [("error",
                 JString ("Table '" +:+ table_name +:+ "' does not exist"))]%string ∧
     json_member "tables_with_columns" (get_tables_with_columns inspector get_columns)
       ≫= json_member table_name
     = None).
Proof.
  assert (json_member "tables_with_columns"
            (get_tables_with_columns inspector get_columns)
            ≫= json_member table_name
          = if decide (table_name ∈ get_table_names inspector)
            then Some (json_strings (rc_name <$> get_columns table_name))
            else None) as ->.
  { unfold get_tables_with_columns. simpl.
    apply (foldl_dict_set_lookup
             (λ table, json_strings (rc_name <$> get_columns table))). }
  unfold get_table_columns. split; intros Ht.
  - rewrite decide_False by (by intros ?). rewrite decide_True by done.
    split; [done|]. by simpl.
  - rewrite decide_True by done. by rewrite decide_False.
Qed.

(** ** The upload route *)

Lemma dict_get_None {A} (k : string) (d : dict A) :
  k ∉ dict_keys d → dict_get k d = None.
Proof.
  unfold dict_keys. induction d as [|[k' v] d IH]; [done|].
  rewrite fmap_cons. intros [Hne Hout]%not_elem_of_cons. simpl in *.
  rewrite decide_False by done. by apply IH.
Qed.

Lemma dict_get_Some_value {A} (k : string) (v : A) (d : dict A) :
  dict_get k d = Some v → v ∈ d.*2.
Proof.
  induction d as [|[k' v'] d IH]; [done|].
  simpl. destruct (decide (k = k')).
  - intros [= ->]. apply elem_of_cons. by left.
  - intros Hd. apply elem_of_cons. right. by apply IH.
Qed.

(** X14. The table name of the path is looked up as it is written: a
    name that is not exactly one of the seven registered names (the
    capitalised "Customer", say) is answered with an error, and nothing is
    stored; for a file that parses the error is "Invalid table name",
    whatever the batch holds.  Field names are lower-cased and trimmed;
    the table name is not. *)
Theorem unknown_table_name_rejected
    (float_repr : Qc → string) (datetime_repr : Z → string)
    (to_datetime : list (option value) → list (option Z))
    (integrity_error :
       gmap string (list (gmap string (option value))) → string →
       list (gmap string (option value)) → option string)
    (read_csv : string → CsvRead)
    (unmodelled_labels :
       Model → DataFrame value → gmap string (list (gmap string (option value))) →
       UploadResponse * gmap string (list (gmap string (option value))))
    (table_name : string) (contents : string)
    (store : gmap string (list (gmap string (option value)))) :
  table_name ∉ dict_keys tables →
  (∃ e, upload_csv float_repr datetime_repr to_datetime integrity_error
          read_csv unmodelled_labels table_name contents store
        = (UploadError e, store)) ∧
  (∀ df, read_csv contents = CsvFrame df →
     upload_csv float_repr datetime_repr to_datetime integrity_error
       read_csv unmodelled_labels table_name contents store
     = (UploadError "Invalid table name", store)).
Proof.
  intros Hout. unfold upload_csv, upload_csv_with.
  rewrite (dict_get_None _ _ Hout).
  destruct (read_csv contents) as [df|e].
  - split; [by eexists|]. by intros df' _.
  - split; [by eexists|]. by intros df' [=].
Qed.

Lemma unknown_table_name_rejected_witness :
  (∃ e, upload_csv sample_float_repr sample_datetime_repr sample_to_datetime
          sample_integrity_error sample_read_csv sample_unmodelled_labels
          "Customer" customer_csv ∅
        = (UploadError e, ∅)) ∧
  (∀ df, sample_read_csv customer_csv = CsvFrame df →
     upload_csv sample_float_repr sample_datetime_repr sample_to_datetime
       sample_integrity_error sample_read_csv sample_unmodelled_labels
       "Customer" customer_csv ∅
     = (UploadError "Invalid table name", ∅)).
Proof.
  apply (unknown_table_name_rejected sample_float_repr sample_datetime_repr
           sample_to_datetime sample_integrity_error sample_read_csv
           sample_unmodelled_labels "Customer" customer_csv ∅).
  apply (bool_decide_unpack _). by vm_compute.
Defined.



(** X20. A file none of whose normalised field names is a column of the
    model is not rejected.  Every field is dropped, the frame is left
    without columns and so yields no row: the storage engine is handed an
    empty batch, and when it takes that the route answers with the success
    message although no row of the file is stored. *)
Theorem unrecognised_batch_stores_nothing
    (float_repr : Qc → string) (datetime_repr : Z → string)
    (to_datetime : list (option value) → list (option Z))
    (integrity_error :
       gmap string (list (gmap string (option value))) → string →
       list (gmap string (option value)) → option string)
    (read_csv : string → CsvRead)
    (unmodelled_labels :
       Model → DataFrame value → gmap string (list (gmap string (option value))) →
       UploadResponse * gmap string (list (gmap string (option value))))
    (tables : dict Model) (table_name : string) (TableClass : Model)
    (contents : string) (df : DataFrame value)
    (store : gmap string (list (gmap string (option value)))) :
  read_csv contents = CsvFrame df →
  dict_get table_name tables = Some TableClass →
  modelled_labels df →
  (∀ c, c ∈ columns df → normalise c ∉ name <$> table_columns TableClass) →
  integrity_error store (tablename TableClass) [] = None →
  records_for float_repr datetime_repr to_datetime TableClass df = [] ∧
  ∃ store',
    upload_csv_with float_repr datetime_repr to_datetime integrity_error
      read_csv unmodelled_labels tables table_name contents store
    = (UploadMessage ("CSV uploaded successfully to " +:+ table_name), store') ∧
    default [] (store' !! tablename TableClass)
    = default [] (store !! tablename TableClass) ∧
    ∀ t, t ≠ tablename TableClass → store' !! t = store !! t.
Proof.
  intros Hread Ht Hlabels Hnone Hok. pose proof Hlabels as [_ Hnd].
  pose proof (records_for_nothing float_repr datetime_repr to_datetime
                TableClass df Hnd Hnone) as Hrecords.
  split; [done|]. eexists. split.
  - apply upload_accepted; [done..|]. by rewrite Hrecords.
  - rewrite Hrecords, app_nil_r. split.
    + by rewrite lookup_insert_eq.
    + intros t Hne. by apply lookup_insert_ne.
Qed.

Lemma unrecognised_batch_stores_nothing_witness :
  records_for sample_float_repr sample_datetime_repr sample_to_datetime
    Customer foreign_batch = [] ∧
  ∃ store',
    upload_csv_with sample_float_repr sample_datetime_repr sample_to_datetime
      sample_integrity_error sample_read_csv sample_unmodelled_labels
      tables "customer" foreign_csv ∅
    = (UploadMessage ("CSV uploaded successfully to " +:+ "customer"), store') ∧
    default [] (store' !! tablename Customer)
    = default [] ((∅ : gmap string (list (gmap string (option value))))
                    !! tablename Customer) ∧
    ∀ t, t ≠ tablename Customer →
      store' !! t = (∅ : gmap string (list (gmap string (option value)))) !! t.
Proof.
  apply (unrecognised_batch_stores_nothing sample_float_repr sample_datetime_repr
           sample_to_datetime sample_integrity_error sample_read_csv
           sample_unmodelled_labels tables "customer" Customer foreign_csv
           foreign_batch ∅).
  - vm_compute. reflexivity.
  - reflexivity.
  - apply (bool_decide_unpack _). by vm_compute.
  - intros c Hc. unfold columns, foreign_batch in Hc.
    cbn [series fmap list_fmap fst] in Hc.
    repeat (apply elem_of_cons in Hc as [->|Hc];
            [apply (bool_decide_unpack _); by vm_compute|]).
    by apply elem_of_nil in Hc.
  - reflexivity.
Defined.

(** *** Field names *)

Lemma lower_ascii_idemp (c : ascii) : lower_ascii (lower_ascii c) = lower_ascii c.
Proof. by destruct c as [[] [] [] [] [] [] [] []]. Qed.

Lemma is_whitespace_lower (c : ascii) :
  is_whitespace (lower_ascii c) = is_whitespace c.
Proof. by destruct c as [[] [] [] [] [] [] [] []]. Qed.

Lemma lstrip_chars_lower (cs : list ascii) :
  lstrip_chars (lower_ascii <$> cs) = lower_ascii <$> lstrip_chars cs.
Proof.
  induction cs as [|c cs IH]; [done|]. rewrite fmap_cons. cbn [lstrip_chars].
  rewrite is_whitespace_lower. by destruct (is_whitespace c).
Qed.

(** What [lstrip_chars] leaves does not start with white space. *)
Lemma lstrip_chars_stripped (cs : list ascii) :
  match lstrip_chars cs with c :: _ => is_whitespace c = false | [] => True end.
Proof.
  induction cs as [|c cs IH]; [done|]. cbn [lstrip_chars].
  by destruct (is_whitespace c) eqn:Hc.
Qed.

Lemma lstrip_chars_id (cs : list ascii) :
  match cs with c :: _ => is_whitespace c = false | [] => True end →
  lstrip_chars cs = cs.
Proof. destruct cs as [|c cs]; [done|]. simpl. by intros ->. Qed.

Lemma lstrip_chars_suffix (cs : list ascii) : ∃ k, cs = k ++ lstrip_chars cs.
Proof.
  induction cs as [|c cs [k IH]]; [by exists []|]. cbn [lstrip_chars].
  destruct (is_whitespace c); [|by exists []].
  exists (c :: k). by rewrite <- app_comm_cons, <- IH.
Qed.

Lemma strip_chars_idemp (cs : list ascii) :
  let strip_chars cs := reverse (lstrip_chars (reverse (lstrip_chars cs))) in
  strip_chars (strip_chars cs) = strip_chars cs.
Proof.
  cbv beta zeta. set (a := lstrip_chars cs). set (r := lstrip_chars (reverse a)).
  assert (match reverse r with c :: _ => is_whitespace c = false | [] => True end)
    as Hr.
  { destruct (lstrip_chars_suffix (reverse a)) as [k Hk]. fold r in Hk.
    pose proof (lstrip_chars_stripped cs) as Ha. fold a in Ha.
    assert (a = reverse r ++ reverse k) as Hrev.
    { by rewrite <- reverse_app, <- Hk, reverse_involutive. }
    rewrite Hrev in Ha. by destruct (reverse r). }
  rewrite (lstrip_chars_id _ Hr), reverse_involutive.
  by rewrite (lstrip_chars_id r) by apply lstrip_chars_stripped.
Qed.

Lemma normalise_idemp (c : string) : normalise (normalise c) = normalise c.
Proof.
  unfold normalise, strip, lower.
  rewrite !list_ascii_of_string_of_list_ascii.
  f_equal.
  rewrite fmap_reverse, <- lstrip_chars_lower, fmap_reverse, <- lstrip_chars_lower.
  rewrite <- list_fmap_compose.
  assert (lower_ascii ∘ lower_ascii <$> list_ascii_of_string c
          = lower_ascii <$> list_ascii_of_string c) as ->.
  { apply list_fmap_ext. intros i x _. apply lower_ascii_idemp. }
  apply (strip_chars_idemp (lower_ascii <$> list_ascii_of_string c)).
Qed.

Lemma rename_columns_idemp (df : DataFrame value) :
  rename_columns normalise (rename_columns normalise df) = rename_columns normalise df.
Proof.
  destruct df as [n s]. unfold rename_columns. cbn [nrows series]. f_equal.
  rewrite <- list_fmap_compose. apply list_fmap_ext. intros i cv _. simpl.
  by rewrite normalise_idemp.
Qed.

(** X17. Lower-casing and trimming a field name twice is the same as doing
    it once, so a batch whose headers were already normalised hands the
    storage engine the same mappings as the batch with the headers as they
    were written. *)
Theorem normalised_headers_store_the_same
    (float_repr : Qc → string) (datetime_repr : Z → string)
    (to_datetime : list (option value) → list (option Z)) :
  (∀ c, normalise (normalise c) = normalise c) ∧
  ∀ TableClass df,
    records_for float_repr datetime_repr to_datetime TableClass
      (rename_columns normalise df)
    = records_for float_repr datetime_repr to_datetime TableClass df.
Proof.
  split; [apply normalise_idemp|]. intros TableClass df.
  unfold records_for. cbv zeta. by rewrite rename_columns_idemp.
Qed.

(** X18. The conversions of [upload_csv] go by the name of a field, the
    declared models by the type of a column, and the two agree on the
    seven registered models: a column is converted to a datetime exactly
    when it is declared [DateTime]; every designated identifier or phone
    column a model has is declared [String]; every primary key is one of
    the designated identifier columns, and so is stored as text; and
    every declared column name is already lower-case and trimmed, so it
    can be matched by a field name. *)
Theorem conversions_match_declared_types (table_name : string)
    (TableClass : Model) (c : Column) :
  dict_get table_name tables = Some TableClass →
  c ∈ table_columns TableClass →
  (is_datetime_column (name c) = true ↔ type_ c = DateTime) ∧
  (name c ∈ id_columns → type_ c = String_) ∧
  (primary_key c = true → name c ∈ id_columns) ∧
  normalise (name c) = name c.
Proof.
  intros Ht Hc.
  assert (Forall (λ M : Model, Forall (λ c : Column,
            (is_datetime_column (name c) = true ↔ type_ c = DateTime) ∧
            (name c ∈ id_columns → type_ c = String_) ∧
            (primary_key c = true → name c ∈ id_columns) ∧
            normalise (name c) = name c) (table_columns M)) tables.*2) as Hall.
  { apply (bool_decide_unpack _). by vm_compute. }
  apply dict_get_Some_value in Ht.
  rewrite Forall_forall in Hall. specialize (Hall _ Ht).
  rewrite Forall_forall in Hall. by apply Hall.
Qed.

Lemma conversions_match_declared_types_witness :
  (is_datetime_column "created_at" = true ↔ DateTime = DateTime) ∧
  ("created_at"%string ∈ id_columns → DateTime = String_) ∧
  (false = true → "created_at"%string ∈ id_columns) ∧
  normalise "created_at" = "created_at"%string.
Proof.
  apply (conversions_match_declared_types "customer" Customer
           (mkColumn "created_at" DateTime false true None)).
  - reflexivity.
  - unfold Customer. cbn [table_columns]. do 5 constructor. constructor.
Defined.
